(** * update-agents.py: synchronising agent documents into a settings file

    A shallow embedding of [src/update-agents.py] and the properties of
    its specification.

    Conventions of the model.
    - A Python [str] is a [string]; a character is a code point in the
      range U+0000..U+00FF (the type [ascii] read as Latin-1).
    - A Python [dict] with string keys is a [gmap string _]; the order
      in which [json.dump] emits the keys is not modelled.
    - The settings file is modelled by what [json.load] makes of it;
      writing a value with [json.dump] and loading it again gives the
      same value.
    - Writing the settings file does not fail.
    - The part of [re] that the script uses is a backtracking matcher
      ([Sre]) that tries the alternatives in the order of Python's
      [re]; the patterns of the script are written down as they are. *)

From Stdlib Require Import ZArith Ascii String.
From stdpp Require Import gmap strings list.

#[local] Arguments String.append !_ _ /.
#[local] Arguments Ascii.eqb : simpl never.

(** ** Python string operations *)

Module Py.

Definition LF : ascii := "010"%char.

(** The one-character string [\n]. *)
Definition nl : string := String LF "".

Definition is_lf (c : ascii) : bool := Ascii.eqb c LF.

(** [str.isspace] on one character, which is also the class [\s] of a
    [str] pattern: U+0009..U+000D, U+001C..U+0020, U+0085, U+00A0. *)
Definition isspace (c : ascii) : bool :=
  let n := nat_of_ascii c in
  (Nat.leb 9 n && Nat.leb n 13) || (Nat.leb 28 n && Nat.leb n 32)
  || Nat.eqb n 133 || Nat.eqb n 160.

(** [s[len(p):]] when [s.startswith(p)]. *)
Fixpoint removeprefix (p s : string) : option string :=
  match p, s with
  | "", _ => Some s
  | String a p', String b s' =>
      if Ascii.eqb a b then removeprefix p' s' else None
  | String _ _, "" => None
  end.

Definition startswith (s p : string) : bool :=
  match removeprefix p s with Some _ => true | None => false end.

(** [s.endswith(suffix)] *)
Fixpoint endswith (s suffix : string) : bool :=
  if String.eqb s suffix then true
  else match s with
       | "" => false
       | String _ r => endswith r suffix
       end.

(** [s.replace(old, new)] for a non-empty [old]: occurrences are found
    from the left and do not overlap.  [skip] counts the characters of
    the occurrence being replaced that are still to be dropped. *)
Fixpoint replace_from (old new : string) (skip : nat) (s : string) : string :=
  match s with
  | "" => ""
  | String c r =>
      match skip with
      | S k => replace_from old new k r
      | O =>
          if startswith s old
          then new +:+ replace_from old new (String.length old - 1) r
          else String c (replace_from old new 0 r)
      end
  end.

Definition replace (s old new : string) : string := replace_from old new 0 s.

Fixpoint lstrip (s : string) : string :=
  match s with
  | "" => ""
  | String c r => if isspace c then lstrip r else s
  end.

Fixpoint rstrip (s : string) : string :=
  match s with
  | "" => ""
  | String c r =>
      match rstrip r with
      | "" => if isspace c then "" else String c ""
      | r' => String c r'
      end
  end.

(** [s.strip()] *)
Definition strip (s : string) : string := rstrip (lstrip s).

(** [s.split('\n')] *)
Fixpoint split_lines (s : string) : list string :=
  match s with
  | "" => [""]
  | String c r =>
      if is_lf c then "" :: split_lines r
      else match split_lines r with
           | l :: ls => String c l :: ls
           | [] => [String c ""]
           end
  end.

(** ['\n'.join(ls)] *)
Fixpoint join_lines (ls : list string) : string :=
  match ls with
  | [] => ""
  | [l] => l
  | l :: ls' => l +:+ nl +:+ join_lines ls'
  end.

(** *** Vocabulary for the statements about texts *)

(** No line feed inside: the text is a single line. *)
Fixpoint lf_free (s : string) : bool :=
  match s with
  | "" => true
  | String c r => negb (is_lf c) && lf_free r
  end.

(** What can follow a line: the end of the text or a line break. *)
Definition eol_rest (rest : string) : Prop :=
  rest = "" \/ exists x, rest = nl +:+ x.

(** No full stop inside. *)
Fixpoint dot_free (s : string) : bool :=
  match s with
  | "" => true
  | String c r => negb (Ascii.eqb c ".") && dot_free r
  end.

(** Only white space. *)
Fixpoint all_space (s : string) : bool :=
  match s with
  | "" => true
  | String c r => isspace c && all_space r
  end.

(** Not empty, and the first character is no white space. *)
Definition starts_black (s : string) : Prop :=
  match s with
  | "" => False
  | String c _ => isspace c = false
  end.

End Py.

(** ** The fragment of Python's [re] that the script uses *)

Module Sre.
Import Py.

(** Patterns: a literal character, the dot, the class [\s], the
    anchors [^] and [$], sequence, the greedy and the lazy star, the
    greedy plus, and a capturing group. *)
Inductive regex : Type :=
| Eps
| Chr (c : ascii)
| Dot
| Space
| Bol
| Eol
| Cat (r1 r2 : regex)
| Star (r : regex)
| LazyStar (r : regex)
| Plus (r : regex)
| Group (r : regex).

Record flags : Type := Flags { dotall : bool; multiline : bool }.

(** [re.DOTALL] and [re.MULTILINE] *)
Definition DOTALL : flags := Flags true false.
Definition MULTILINE : flags := Flags false true.

(** A place in the text: the character before it, if any, and what is
    left of the text. *)
Definition state : Type := option ascii * string.

(** The texts of the groups closed so far, group 1 first. *)
Definition captures : Type := list string.

(** What remains to be matched, as a function of the place reached. *)
Definition cont : Type := state -> captures -> option captures.

(** [^]: at the start of the text, and under [re.MULTILINE] also after
    a line feed. *)
Definition at_bol (fl : flags) (s : state) : bool :=
  match s.1 with
  | None => true
  | Some c => multiline fl && is_lf c
  end.

(** [$]: at the end of the text or before a line feed that ends it,
    and under [re.MULTILINE] before any line feed. *)
Definition at_eol (fl : flags) (s : state) : bool :=
  match s.2 with
  | "" => true
  | String c rest =>
      is_lf c && (multiline fl || match rest with "" => true | _ => false end)
  end.

(** The text between two places. *)
Definition consumed (start stop : state) : string :=
  String.substring 0 (String.length start.2 - String.length stop.2) start.2.

(** One character of a class. *)
Definition eat (ok : ascii -> bool) (s : state) (caps : captures) (k : cont)
  : option captures :=
  match s.2 with
  | String d rest => if ok d then k (Some d, rest) caps else None
  | "" => None
  end.

(** Repetition.  A greedy loop first tries one more turn of [body] and
    leaves the loop when that fails; a lazy loop first tries to leave.
    A turn that eats nothing ends the loop; the text bounds the number
    of turns, which is what [fuel] is for. *)
Fixpoint loop (greedy : bool)
    (body : state -> captures -> cont -> option captures)
    (fuel : nat) (s : state) (caps : captures) (k : cont) : option captures :=
  match fuel with
  | O => k s caps
  | S fuel' =>
      let more :=
        body s caps (fun s' caps' =>
          if String.length s'.2 <? String.length s.2
          then loop greedy body fuel' s' caps' k
          else None) in
      if greedy
      then match more with Some r => Some r | None => k s caps end
      else match k s caps with Some r => Some r | None => more end
  end.

(** The backtracking matcher: the first way to match [r] at [s] and
    then [k], in the order in which [re] tries them. *)
Fixpoint m (fl : flags) (r : regex) (s : state) (caps : captures) (k : cont)
  : option captures :=
  match r with
  | Eps => k s caps
  | Chr c => eat (Ascii.eqb c) s caps k
  | Dot => eat (fun d => dotall fl || negb (is_lf d)) s caps k
  | Space => eat isspace s caps k
  | Bol => if at_bol fl s then k s caps else None
  | Eol => if at_eol fl s then k s caps else None
  | Cat r1 r2 => m fl r1 s caps (fun s' caps' => m fl r2 s' caps' k)
  | Star r => loop true (m fl r) (S (String.length s.2)) s caps k
  | LazyStar r => loop false (m fl r) (S (String.length s.2)) s caps k
  | Plus r =>
      m fl r s caps (fun s' caps' =>
        loop true (m fl r) (S (String.length s'.2)) s' caps' k)
  | Group r => m fl r s caps (fun s' caps' => k s' (caps' ++ [consumed s s']))
  end.

Definition accept : cont := fun _ caps => Some caps.

(** [re.match(pattern, text, flags)]: a match at the start of the text;
    the match object is kept as the texts of its groups. *)
Definition re_match (r : regex) (text : string) (fl : flags) : option captures :=
  m fl r (None, text) [] accept.

Fixpoint search_at (fl : flags) (r : regex) (prev : option ascii) (text : string)
  : option captures :=
  match m fl r (prev, text) [] accept with
  | Some caps => Some caps
  | None =>
      match text with
      | "" => None
      | String c rest => search_at fl r (Some c) rest
      end
  end.

(** [re.search(pattern, text, flags)]: the first match, trying the
    places of the text from the left. *)
Definition re_search (r : regex) (text : string) (fl : flags) : option captures :=
  search_at fl r None text.

(** [match.group(i)], for a group that took part in the match. *)
Definition group (mo : captures) (i : nat) : string := nth (i - 1) mo "".

(** A text matched literally. *)
Fixpoint lit (p : string) : regex :=
  match p with
  | "" => Eps
  | String c p' => Cat (Chr c) (lit p')
  end.

End Sre.

Infix "⋅" := Sre.Cat (at level 60, right associativity).

(** ** The three patterns of the script, in closed form

    What the matcher finds for the patterns of the script, written as
    direct recursions on the text; [SreFacts] proves that they say what
    the matcher does. *)

Module Direct.
Import Py.

(** A lazy group followed by the text [sep] and a greedy last group,
    under [re.DOTALL]: the lazy group grows one character at a time and
    stops as soon as [sep] follows; the last group takes all that is
    left. *)
Fixpoint lazy_until (sep s : string) : option (string * string) :=
  match removeprefix sep s with
  | Some rest => Some ("", rest)
  | None =>
      match s with
      | "" => None
      | String c r =>
          match lazy_until sep r with
          | Some (g1, g2) => Some (String c g1, g2)
          | None => None
          end
      end
  end.

(** The groups 1 and 2 of the frontmatter pattern. *)
Definition frontmatter_split (content : string) : option (string * string) :=
  match removeprefix ("---" +:+ nl) content with
  | Some r => lazy_until (nl +:+ "---" +:+ nl) r
  | None => None
  end.

(** [$] under [re.MULTILINE]: at the end of the text or before a line
    feed. *)
Definition line_end (s : string) : bool :=
  match s with
  | "" => true
  | String c _ => is_lf c
  end.

(** A greedy dot, once or more, and then [$], without [re.DOTALL]: the
    dot refuses the line feed; the longest run is tried first and a
    shorter one only when the rest fails. *)
Fixpoint dot_plus_eol (s : string) : option string :=
  match s with
  | "" => None
  | String c r =>
      if is_lf c then None
      else match dot_plus_eol r with
           | Some g => Some (String c g)
           | None => if line_end r then Some (String c "") else None
           end
  end.

(** Greedy white space before that: it first takes a white-space
    character if there is one, and gives it back when the rest fails. *)
Fixpoint value_match (s : string) : option string :=
  match s with
  | "" => dot_plus_eol s
  | String c r =>
      if isspace c then
        match value_match r with
        | Some g => Some g
        | None => dot_plus_eol s
        end
      else dot_plus_eol s
  end.

(** The field pattern matched at the head of [s]. *)
Definition field_here (field s : string) : option string :=
  match removeprefix (field +:+ ":") s with
  | Some r => value_match r
  | None => None
  end.

(** The search over the places of the text; [bol] tells whether [^]
    under [re.MULTILINE] holds at the head of [s]. *)
Fixpoint search_from (field : string) (bol : bool) (s : string) : option string :=
  match (if bol then field_here field s else None) with
  | Some g => Some g
  | None =>
      match s with
      | "" => None
      | String c r => search_from field (is_lf c) r
      end
  end.

(** The group 1 of the field pattern, searched in [text]. *)
Definition field_value (field text : string) : option string :=
  search_from field true text.

(** The character before the place reached after the text [p]. *)
Fixpoint prev_after (prev : option ascii) (p : string) : option ascii :=
  match p with
  | "" => prev
  | String c p' => prev_after (Some c) p'
  end.

(** Closed forms as match objects. *)
Definition two_groups (r : option (string * string)) : option Sre.captures :=
  match r with
  | Some (g1, g2) => Some [g1; g2]
  | None => None
  end.

Definition one_group (r : option string) : option Sre.captures :=
  match r with
  | Some g => Some [g]
  | None => None
  end.

End Direct.

(** ** JSON values *)

(** What [json.load] returns: [None], [bool], [int], [float] (kept as
    its IEEE 754 bits; the script does no arithmetic), [str], [list] and
    [dict]. *)
#[warnings="-register-all"]
Inductive json : Type :=
| JNull
| JBool (b : bool)
| JInt (n : Z)
| JFloat (bits : Z)
| JStr (s : string)
| JArr (items : list json)
| JObj (members : gmap string json).

(** ** The script *)

Module Agents.
Import Py Sre.

(** The exceptions the script can die of. *)
Inductive exn : Type :=
| FileNotFoundError
| JSONDecodeError
| OSError
| UnicodeDecodeError
| TypeError
| AttributeError.

(** The settings file as [json.load] sees it. *)
Inductive settings_src : Type :=
| Missing
| Malformed
| Parsed (settings : json).

(** A directory entry as [open(filepath, 'r')] and [f.read()] see it. *)
Inductive dirent : Type :=
| TextFile (content : string)
| Unreadable (e : exn).

(** [os.listdir(agents_dir)], in the order of the file system. *)
Inductive dir_src : Type :=
| NoDirectory
| Listing (entries : list (string * dirent)).

Record world : Type := World {
  settings_file : settings_src;
  agents_dir : dir_src
}.

(** What the script does to the outside, in order. *)
Inductive event : Type :=
| OpenDoc (filename : string)
| Printed (text : string)
| PrintedSummary (count : nat)
| Dumped (settings : json).

(** A computation logs events and ends with a value or an exception. *)
Definition M (A : Type) : Type := list event * (exn + A).

Definition ret {A} (a : A) : M A := ([], inr a).
Definition raise {A} (e : exn) : M A := ([], inl e).
Definition emit (ev : event) : M unit := ([ev], inr tt).

Definition bind {A B} (m : M A) (k : A -> M B) : M B :=
  match m with
  | (t, inl e) => (t, inl e)
  | (t, inr a) => let '(t', r) := k a in (t ++ t', r)
  end.

Notation "x <- m ;; k" := (bind m (fun x => k))
  (at level 100, m at next level, right associativity).
Notation "m ;;; k" := (bind m (fun _ => k))
  (at level 100, right associativity).

Definition lift {A} (r : exn + A) : M A := ([], r).

(** [with open(settings_file, 'r') as f: settings = json.load(f)] *)
Definition load_settings (src : settings_src) : M json :=
  match src with
  | Missing => raise FileNotFoundError
  | Malformed => raise JSONDecodeError
  | Parsed settings => ret settings
  end.

Definition listdir (src : dir_src) : M (list (string * dirent)) :=
  match src with
  | NoDirectory => raise FileNotFoundError
  | Listing entries => ret entries
  end.

(** [with open(filepath, 'r') as f: content = f.read()] *)
Definition read_doc (filename : string) (d : dirent) : M string :=
  emit (OpenDoc filename) ;;;
  match d with
  | TextFile content => ret content
  | Unreadable e => raise e
  end.

Definition agent_entry (name description body : string) : json :=
  JObj (<["name" := JStr name]>
       (<["description" := JStr description]>
       (<["systemPrompt" := JStr body]> ∅))).

(** The two statements
    [if 'agents' not in settings: settings['agents'] = {}] and
    [settings['agents'][agent_id] = entry].
    On a [list] or a [str] the membership test works and the item
    assignment raises [TypeError]; on the other values that are no
    [dict] the test itself does.  A value under ['agents'] that is no
    [dict] refuses the item assignment. *)
Definition merge_agent (settings : json) (agent_id : string) (entry : json)
  : exn + json :=
  match settings with
  | JObj top =>
      let top1 :=
        match top !! "agents" with
        | None => <["agents" := JObj ∅]> top
        | Some _ => top
        end in
      match top1 !! "agents" with
      | Some (JObj agents) =>
          inr (JObj (<["agents" := JObj (<[agent_id := entry]> agents)]> top1))
      | _ => inl TypeError
      end
  | _ => inl TypeError
  end.

(** The pattern [r'^---\n( .*? )\n---\n( .* )'] (patterns are written
    here with blanks that are not part of them). *)
Definition frontmatter_re : regex :=
  Bol ⋅ lit ("---" +:+ nl) ⋅ Group (LazyStar Dot)
  ⋅ lit (nl +:+ "---" +:+ nl) ⋅ Group (Star Dot).

(** The patterns [r'^name:\s*( .+ )$'] and [r'^description:\s*( .+ )$']. *)
Definition field_re (field : string) : regex :=
  Bol ⋅ lit (field +:+ ":") ⋅ Star Space ⋅ Group (Plus Dot) ⋅ Eol.

Definition name_re : regex := field_re "name".
Definition desc_re : regex := field_re "description".

(** [agent_id = filename.replace('.md', '')] *)
Definition agent_id_of (filename : string) : string :=
  replace filename ".md" "".

(** The body of the [for] loop. *)
Definition process_file (settings : json) (filename : string) (d : dirent)
  : M json :=
  if endswith filename ".md" then
    let agent_id := agent_id_of filename in
    content <- read_doc filename d ;;
    match re_match frontmatter_re content DOTALL with
    | Some frontmatter_match =>
        let frontmatter := group frontmatter_match 1 in
        let body := strip (group frontmatter_match 2) in
        match re_search name_re frontmatter MULTILINE,
              re_search desc_re frontmatter MULTILINE with
        | Some name_match, Some desc_match =>
            let name := strip (group name_match 1) in
            let description := strip (group desc_match 1) in
            settings' <- lift (merge_agent settings agent_id
                                 (agent_entry name description body)) ;;
            emit (Printed ("Updated agent: " +:+ agent_id)) ;;;
            ret settings'
        | _, _ => ret settings
        end
    | None => ret settings
    end
  else ret settings.

(** [for filename in os.listdir(agents_dir): ...] *)
Fixpoint process_all (settings : json) (entries : list (string * dirent))
  : M json :=
  match entries with
  | [] => ret settings
  | (filename, d) :: rest =>
      settings' <- process_file settings filename d ;;
      process_all settings' rest
  end.

(** [len(x)] *)
Definition py_len (x : json) : exn + nat :=
  match x with
  | JObj m => inr (size m)
  | JArr l => inr (length l)
  | JStr s => inr (String.length s)
  | _ => inl TypeError
  end.

(** [len(settings.get('agents', {}))] *)
Definition agents_count (settings : json) : exn + nat :=
  match settings with
  | JObj top =>
      match top !! "agents" with
      | Some x => py_len x
      | None => inr 0
      end
  | _ => inl AttributeError
  end.

(** The whole script.  The last line prints a blank line, a check
    mark and [Successfully updated {count} agents in
    settings.local.json]; the model keeps the count. *)
Definition run (w : world) : M unit :=
  settings <- load_settings (settings_file w) ;;
  entries <- listdir (agents_dir w) ;;
  settings' <- process_all settings entries ;;
  emit (Dumped settings') ;;;
  count <- lift (agents_count settings') ;;
  emit (PrintedSummary count).

(** The settings file after a run: what the last [json.dump] wrote, or
    what was there when nothing was written. *)
Definition dumps (t : list event) : list json :=
  omap (fun ev => match ev with Dumped j => Some j | _ => None end) t.

Definition last_dump (t : list event) : option json := last (dumps t).

Definition settings_after (w : world) : settings_src :=
  match last_dump (run w).1 with
  | Some j => Parsed j
  | None => settings_file w
  end.

Definition world_after (w : world) : world :=
  World (settings_after w) (agents_dir w).

(** The documents opened and the lines printed, read off a trace. *)
Definition opened (t : list event) : list string :=
  omap (fun ev => match ev with OpenDoc f => Some f | _ => None end) t.

Inductive out_line : Type :=
| Line (text : string)
| SummaryLine (count : nat).

Definition stdout (t : list event) : list out_line :=
  omap (fun ev => match ev with
                  | Printed s => Some (Line s)
                  | PrintedSummary n => Some (SummaryLine n)
                  | _ => None
                  end) t.

(** The [agents] mapping of a store; empty when there is none. *)
Definition agents_of (settings : json) : gmap string json :=
  match settings with
  | JObj top =>
      match top !! "agents" with
      | Some (JObj agents) => agents
      | _ => ∅
      end
  | _ => ∅
  end.

(** *** The loop body, taken apart

    The definitions below restate pieces of [process_file]; the lemmas
    [process_file_action] and [process_all_ok] prove that they say what
    the loop does. *)

(** The three strings of an entry, when the document has a header with
    both fields. *)
Definition parse_agent (content : string) : option (string * string * string) :=
  match re_match frontmatter_re content DOTALL with
  | Some frontmatter_match =>
      let frontmatter := group frontmatter_match 1 in
      match re_search name_re frontmatter MULTILINE,
            re_search desc_re frontmatter MULTILINE with
      | Some name_match, Some desc_match =>
          Some (strip (group name_match 1), strip (group desc_match 1),
                strip (group frontmatter_match 2))
      | _, _ => None
      end
  | None => None
  end.

(** What a directory entry makes the loop do. *)
Inductive action : Type :=
| Pass
| Skip
| Die (e : exn)
| Put (agent_id : string) (entry : json).

Definition action_of (filename : string) (d : dirent) : action :=
  if endswith filename ".md" then
    match d with
    | Unreadable e => Die e
    | TextFile content =>
        match parse_agent content with
        | Some (name, description, body) =>
            Put (agent_id_of filename) (agent_entry name description body)
        | None => Skip
        end
    end
  else Pass.

Definition dies (filename : string) (d : dirent) : bool :=
  match action_of filename d with
  | Die _ => true
  | _ => false
  end.

(** No [.md] entry of the directory is unreadable. *)
Definition no_die (entries : list (string * dirent)) : Prop :=
  Forall (fun '(filename, d) => dies filename d = false) entries.

(** The entries the loop merges, in order. *)
Definition puts (entries : list (string * dirent)) : list (string * json) :=
  omap (fun '(filename, d) =>
          match action_of filename d with
          | Put agent_id entry => Some (agent_id, entry)
          | _ => None
          end) entries.

(** The events of a loop that is not stopped by an exception. *)
Definition events_of (filename : string) (d : dirent) : list event :=
  match action_of filename d with
  | Pass => []
  | Skip | Die _ => [OpenDoc filename]
  | Put agent_id _ =>
      [OpenDoc filename; Printed ("Updated agent: " +:+ agent_id)]
  end.

Definition loop_events (entries : list (string * dirent)) : list event :=
  flat_map (fun '(filename, d) => events_of filename d) entries.

(** A store the merge accepts: a [dict] whose ['agents'], if there,
    is a [dict]. *)
Definition store_ok (settings : json) : Prop :=
  exists top, settings = JObj top /\
    (top !! "agents" = None \/ exists agents, top !! "agents" = Some (JObj agents)).

(** The merge on such a store. *)
Definition put_agent (settings : json) (agent_id : string) (entry : json) : json :=
  match settings with
  | JObj top =>
      JObj (<["agents" := JObj (<[agent_id := entry]> (agents_of settings))]> top)
  | _ => settings
  end.

Definition fold_put (settings : json) (ops : list (string * json)) : json :=
  foldl (fun s '(agent_id, entry) => put_agent s agent_id entry) settings ops.

Definition apply_puts (agents : gmap string json) (ops : list (string * json))
  : gmap string json :=
  foldl (fun m '(agent_id, entry) => <[agent_id := entry]> m) agents ops.

(** *** Words of the specification *)

(** The identifier as the specification words it: the file name
    without its extension, for a name that ends with [.md]. *)
Definition spec_identifier (filename : string) : string :=
  String.substring 0 (String.length filename - 3) filename.

(** The first of the lines that starts with [prefix]. *)
Definition first_line_with (prefix : string) (ls : list string) : option string :=
  List.find (fun l => startswith l prefix) ls.

(** A document with the two fields and a body. *)
Definition doc (name description body : string) : string :=
  join_lines ["---"; "name: " +:+ name; "description: " +:+ description;
              "---"; body].

(** *** A directory and a store to run the script on

    Three documents that parse, one without closing line, one without
    name, a file that is no document, and a store that holds another
    key and an entry no file stands for. *)

Definition demo_top : gmap string json :=
  <["theme" := JStr "dark"]>
  (<["agents" := JObj (<["old" := agent_entry "Old" "Stale" "Gone"]> ∅)]> ∅).

Definition demo_dir : list (string * dirent) :=
  [ ("a.md", TextFile (doc "Alpha" "First" "Do this."));
    ("d.md", TextFile (join_lines ["---"; "name: Delta"; "description: Open"]));
    ("b.md", TextFile (doc "Beta" "Second" "Do that."));
    ("notes.txt", Unreadable UnicodeDecodeError);
    ("e.md", TextFile (join_lines ["---"; "description: Nameless"; "---"; "Text"]));
    ("c.md", TextFile (doc "Gamma" "Third" "Do more.")) ].

Definition demo_world : world := World (Parsed (JObj demo_top)) (Listing demo_dir).

End Agents.

(** ** Vocabulary for further properties of the script *)

Module More.
Import Py Sre Direct Agents.

(** The text [p] occurs in [s]. *)
Definition occurs (p s : string) : Prop := exists a b, s = a +:+ p +:+ b.

(** A place where a line starts: the start of the text or after a line
    feed. *)
Definition line_start (a : string) : Prop :=
  a = "" \/ exists a', a = a' +:+ nl.

(** The first, and the last, character is white space. *)
Definition head_space (s : string) : bool :=
  match s with
  | "" => false
  | String c _ => isspace c
  end.

Fixpoint last_space (s : string) : bool :=
  match s with
  | "" => false
  | String c r =>
      match r with
      | "" => isspace c
      | String _ _ => last_space r
      end
  end.

(** The entries of a listing whose name ends with [.md], in order. *)
Definition md_entries (entries : list (string * dirent))
  : list (string * dirent) :=
  List.filter (fun e => endswith e.1 ".md") entries.

(** Some [.md] entry of the listing cannot be read. *)
Definition unreadable_md (entries : list (string * dirent)) : Prop :=
  exists filename e,
    (filename, Unreadable e) ∈ entries /\ endswith filename ".md" = true.

(** No [.md] entry that can be read has a header with both fields. *)
Definition none_parses (entries : list (string * dirent)) : Prop :=
  Forall (fun '(filename, d) =>
            forall content,
              endswith filename ".md" = true -> d = TextFile content ->
              parse_agent content = None) entries.

(** Every [.md] entry can be read. *)
Definition all_readable (entries : list (string * dirent)) : Prop :=
  Forall (fun '(filename, d) =>
            endswith filename ".md" = true ->
            exists content, d = TextFile content) entries.

End More.

(** * Facts about the string operations *)

Module PyFacts.
Import Py.

Lemma sapp_assoc (a b c : string) : (a +:+ b) +:+ c = a +:+ (b +:+ c).
Proof. induction a as [|x a IH]; simpl; congruence. Qed.

Lemma sapp_empty_r (a : string) : a +:+ "" = a.
Proof. induction a as [|x a IH]; simpl; congruence. Qed.

Lemma is_lf_true c : is_lf c = true <-> c = LF.
Proof. unfold is_lf. apply Ascii.eqb_eq. Qed.

Lemma removeprefix_Some p s r : removeprefix p s = Some r <-> s = p +:+ r.
Proof.
  revert s. induction p as [|a p IH]; intros s; simpl.
  - split; [by intros [= ->] | by intros ->].
  - destruct s as [|b s]; [by split|].
    destruct (Ascii.eqb_spec a b) as [->|Hne].
    + rewrite IH. split; [by intros -> | by intros [= ->]].
    + split; [done | intros [= -> _]; done].
Qed.

Lemma removeprefix_app p r : removeprefix p (p +:+ r) = Some r.
Proof. by apply removeprefix_Some. Qed.

(** A pattern without line feed that does not start a line does not
    start that line followed by a line break either. *)
Lemma removeprefix_line_None p l rest :
  lf_free p = true ->
  removeprefix p l = None ->
  rest = "" \/ (exists x, rest = nl +:+ x) ->
  removeprefix p (l +:+ rest) = None.
Proof.
  intros Hp. revert l. induction p as [|a p IH]; intros l Hl Hrest; [done|].
  simpl in Hp. apply andb_true_iff in Hp as [Ha Hp].
  destruct l as [|b l]; simpl.
  - destruct Hrest as [->|[x ->]]; [done|]. simpl.
    unfold is_lf in Ha. by destruct (Ascii.eqb a LF).
  - simpl in Hl. destruct (Ascii.eqb a b); [by apply IH | done].
Qed.

Lemma lf_free_app a b : lf_free (a +:+ b) = lf_free a && lf_free b.
Proof.
  induction a as [|x a IH]; simpl; [done|].
  by rewrite IH, andb_assoc.
Qed.

(** The first line feed of a text cuts it in one way only. *)
Lemma first_lf_unique a b x y :
  lf_free a = true -> lf_free b = true ->
  a +:+ nl +:+ x = b +:+ nl +:+ y -> a = b /\ x = y.
Proof.
  revert b. induction a as [|c a IH]; intros b Ha Hb Heq.
  - destruct b as [|d b]; simpl in *.
    + by injection Heq as ->.
    + injection Heq as <- _. by rewrite (proj2 (is_lf_true LF)) in Hb.
  - simpl in Ha. apply andb_true_iff in Ha as [Hc Ha].
    destruct b as [|d b]; simpl in *.
    + injection Heq as -> _. by rewrite (proj2 (is_lf_true LF)) in Hc.
    + apply andb_true_iff in Hb as [_ Hb]. injection Heq as -> Heq.
      destruct (IH b Ha Hb Heq) as [-> ->]. done.
Qed.

Lemma split_lines_nonempty s : split_lines s <> [].
Proof.
  destruct s as [|c r]; simpl; [done|].
  destruct (is_lf c); [done|]. by destruct (split_lines r).
Qed.

Lemma split_lines_app_nl a b :
  split_lines (a +:+ nl +:+ b) = split_lines a ++ split_lines b.
Proof.
  induction a as [|c a IH]; simpl in *.
  - done.
  - destruct (is_lf c); [by rewrite IH|].
    rewrite IH. pose proof (split_lines_nonempty a) as Hne.
    by destruct (split_lines a).
Qed.

Lemma split_lines_line l : lf_free l = true -> split_lines l = [l].
Proof.
  induction l as [|c l IH]; simpl; [done|].
  intros [Hc Hl]%andb_true_iff. apply negb_true_iff in Hc.
  by rewrite Hc, IH.
Qed.

Lemma join_lines_cons l l2 ls :
  join_lines (l :: l2 :: ls) = l +:+ nl +:+ join_lines (l2 :: ls).
Proof. done. Qed.

Lemma split_join_lines ls :
  ls <> [] -> Forall (fun l => lf_free l = true) ls ->
  split_lines (join_lines ls) = ls.
Proof.
  induction ls as [|l ls IH]; [done|]. intros _ Hall.
  apply Forall_cons in Hall as [Hl Hall].
  destruct ls as [|l2 ls].
  - by apply split_lines_line.
  - rewrite join_lines_cons, split_lines_app_nl, split_lines_line by done.
    by rewrite IH.
Qed.

Lemma join_lines_push c l ls :
  join_lines (String c l :: ls) = String c (join_lines (l :: ls)).
Proof. by destruct ls. Qed.

Lemma join_split_lines s : join_lines (split_lines s) = s.
Proof.
  induction s as [|c s IH]; [done|]. cbn [split_lines].
  pose proof (split_lines_nonempty s) as Hne.
  destruct (split_lines s) as [|l ls]; [done|].
  destruct (is_lf c) eqn:Hc.
  - apply is_lf_true in Hc as ->. rewrite join_lines_cons, IH. done.
  - by rewrite join_lines_push, IH.
Qed.

Lemma split_lines_lf_free s : Forall (fun l => lf_free l = true) (split_lines s).
Proof.
  induction s as [|c s IH]; simpl.
  - by repeat constructor.
  - destruct (is_lf c) eqn:Hc; [by constructor|].
    destruct (split_lines s) as [|l ls]; simpl.
    + repeat constructor. simpl. by rewrite Hc.
    + apply Forall_cons in IH as [Hl Hls]. constructor; [|done].
      simpl. by rewrite Hc, Hl.
Qed.

Lemma join_lines_head l ls :
  exists rest, join_lines (l :: ls) = l +:+ rest /\ eol_rest rest.
Proof.
  destruct ls as [|l2 ls].
  - exists "". split; [by rewrite sapp_empty_r | by left].
  - exists (nl +:+ join_lines (l2 :: ls)). split; [done | right; by eexists].
Qed.

End PyFacts.

(** * Facts about the closed forms of the patterns *)

Module DirectFacts.
Import Py Direct PyFacts.

(** What the lazy group and the rest are, when the match succeeds. *)
Lemma lazy_until_Some sep s g1 g2 :
  lazy_until sep s = Some (g1, g2) -> s = g1 +:+ sep +:+ g2.
Proof.
  revert g1. induction s as [|c s IH]; intros g1; simpl.
  - destruct (removeprefix sep "") as [r|] eqn:Hp; [|done].
    intros [= <- <-]. by apply removeprefix_Some in Hp.
  - destruct (removeprefix sep (String c s)) as [r|] eqn:Hp.
    + intros [= <- <-]. by apply removeprefix_Some in Hp.
    + destruct (lazy_until sep s) as [[h r]|]; [|done].
      intros [= <- <-]. simpl. by rewrite (IH h).
Qed.

Lemma frontmatter_split_Some c h r :
  frontmatter_split c = Some (h, r) ->
  c = "---" +:+ nl +:+ h +:+ nl +:+ "---" +:+ nl +:+ r.
Proof.
  unfold frontmatter_split.
  destruct (removeprefix _ c) as [c'|] eqn:Hp; [|done].
  intros Hl%lazy_until_Some. apply removeprefix_Some in Hp.
  rewrite Hp, Hl. simpl. done.
Qed.

(** A document that matches has its opening line, the lines of the
    header, the closing line and the lines of the rest. *)
Lemma frontmatter_split_lines c h r :
  frontmatter_split c = Some (h, r) ->
  split_lines c = "---" :: split_lines h ++ "---" :: split_lines r.
Proof.
  intros ->%frontmatter_split_Some.
  change ("---" +:+ nl +:+ h +:+ nl +:+ "---" +:+ nl +:+ r)
    with ("---" +:+ nl +:+ (h +:+ nl +:+ ("---" +:+ nl +:+ r))).
  by rewrite !split_lines_app_nl.
Qed.

(** The lazy group walks over a line without stopping: every
    separator here starts with a line feed. *)
Lemma lazy_until_line sep l x :
  lf_free l = true ->
  lazy_until (nl +:+ sep) (l +:+ x) =
  match lazy_until (nl +:+ sep) x with
  | Some (g1, g2) => Some (l +:+ g1, g2)
  | None => None
  end.
Proof.
  induction l as [|c l IH]; simpl.
  - intros _. by destruct (lazy_until _ x) as [[??]|].
  - intros [Hc Hl]%andb_true_iff. apply negb_true_iff in Hc.
    unfold is_lf in Hc. rewrite Ascii.eqb_sym in Hc. rewrite Hc.
    simpl in IH. rewrite (IH Hl).
    by destruct (lazy_until _ x) as [[??]|].
Qed.

Lemma lazy_until_join ls rest :
  ls <> [] ->
  Forall (fun l => lf_free l = true) ls ->
  "---" ∉ tail ls ->
  lazy_until (nl +:+ "---" +:+ nl) (join_lines ls +:+ nl +:+ "---" +:+ nl +:+ rest)
  = Some (join_lines ls, rest).
Proof.
  induction ls as [|l ls IH]; [done|]. intros _ Hall Hnot.
  apply Forall_cons in Hall as [Hl Hall].
  destruct ls as [|l2 ls].
  - simpl join_lines. rewrite (lazy_until_line _ l) by done.
    replace (lazy_until _ _) with (Some ("", rest)).
    + by rewrite sapp_empty_r.
    + done.
  - rewrite join_lines_cons, !sapp_assoc.
    rewrite (lazy_until_line _ l) by done.
    assert (Hl2 : lf_free l2 = true) by (by apply Forall_cons in Hall as [? _]).
    simpl in Hnot. apply not_elem_of_cons in Hnot as [Hne Hnot].
    assert (Hrec : lazy_until (nl +:+ "---" +:+ nl)
                     (join_lines (l2 :: ls) +:+ nl +:+ "---" +:+ nl +:+ rest)
                   = Some (join_lines (l2 :: ls), rest)).
    { by apply IH. }
    assert (Hhead : exists z, join_lines (l2 :: ls) +:+ nl +:+ "---" +:+ nl +:+ rest
                              = l2 +:+ nl +:+ z).
    { destruct ls as [|l3 ls]; [by eexists|].
      rewrite join_lines_cons, !sapp_assoc. by eexists. }
    destruct Hhead as [z Hz].
    assert (Hno : removeprefix ("---" +:+ nl) (l2 +:+ nl +:+ z) = None).
    { destruct (removeprefix _ _) as [y|] eqn:Hp; [|done].
      apply removeprefix_Some in Hp.
      change (("---" +:+ nl) +:+ y) with ("---" +:+ nl +:+ y) in Hp.
      apply first_lf_unique in Hp as [? _]; [|done..]. by subst l2. }
    change (nl +:+ join_lines (l2 :: ls) +:+ nl +:+ "---" +:+ nl +:+ rest)
      with (String LF (join_lines (l2 :: ls) +:+ nl +:+ "---" +:+ nl +:+ rest)).
    change (nl +:+ "---" +:+ nl) with (String LF ("---" +:+ nl)) in *.
    cbn [lazy_until removeprefix]. rewrite Ascii.eqb_refl.
    rewrite Hz in *. rewrite Hno, Hrec. done.
Qed.

(** The header is the text up to the first closing line. *)
Lemma frontmatter_split_join hdr rest :
  hdr <> [] ->
  Forall (fun l => lf_free l = true) hdr ->
  "---" ∉ tail hdr ->
  frontmatter_split
    ("---" +:+ nl +:+ join_lines hdr +:+ nl +:+ "---" +:+ nl +:+ rest)
  = Some (join_lines hdr, rest).
Proof.
  intros Hne Hall Hnot. unfold frontmatter_split.
  change ("---" +:+ nl +:+ join_lines hdr +:+ nl +:+ "---" +:+ nl +:+ rest)
    with (("---" +:+ nl) +:+ (join_lines hdr +:+ nl +:+ "---" +:+ nl +:+ rest)).
  rewrite removeprefix_app. by apply lazy_until_join.
Qed.

Lemma dot_plus_eol_stop rest : eol_rest rest -> dot_plus_eol rest = None.
Proof. by intros [->|[x ->]]. Qed.

Lemma line_end_rest rest : eol_rest rest -> line_end rest = true.
Proof. by intros [->|[x ->]]. Qed.

(** The greedy dot takes a whole line. *)
Lemma dot_plus_eol_line v rest :
  v <> "" -> lf_free v = true -> eol_rest rest ->
  dot_plus_eol (v +:+ rest) = Some v.
Proof.
  intros Hne Hv Hrest. induction v as [|c v IH]; [done|].
  simpl in *. apply andb_true_iff in Hv as [Hc Hv].
  apply negb_true_iff in Hc. rewrite Hc.
  destruct v as [|d v].
  - simpl. by rewrite dot_plus_eol_stop, line_end_rest.
  - by rewrite IH.
Qed.

(** White space, then a value that ends its line: the value is the
    group. *)
Lemma value_match_line w v rest :
  all_space w = true -> starts_black v -> lf_free v = true ->
  eol_rest rest ->
  value_match (w +:+ v +:+ rest) = Some v.
Proof.
  intros Hw Hb Hv Hrest. induction w as [|c w IH]; simpl in *.
  - destruct v as [|d v]; [done|]. simpl in Hb.
    change (value_match (String d v +:+ rest) = Some (String d v)).
    cbn [String.append value_match]. rewrite Hb.
    by apply (dot_plus_eol_line (String d v)).
  - apply andb_true_iff in Hw as [Hc Hw]. by rewrite Hc, IH.
Qed.

Lemma search_bol_miss field s :
  field_here field s = None ->
  search_from field true s = search_from field false s.
Proof. intros Hm. destruct s; simpl; by rewrite Hm. Qed.

Lemma search_over_line field l x :
  lf_free l = true ->
  search_from field false (l +:+ nl +:+ x) = search_from field true x.
Proof.
  induction l as [|c l IH]; simpl; [done|].
  intros [Hc Hl]%andb_true_iff. apply negb_true_iff in Hc.
  rewrite Hc. by apply IH.
Qed.

Lemma search_last_line field l :
  lf_free l = true -> search_from field false l = None.
Proof.
  induction l as [|c l IH]; simpl; [done|].
  intros [Hc Hl]%andb_true_iff. apply negb_true_iff in Hc.
  rewrite Hc. by apply IH.
Qed.

Lemma field_here_line_miss field l rest :
  lf_free field = true ->
  startswith l (field +:+ ":") = false ->
  eol_rest rest ->
  field_here field (l +:+ rest) = None.
Proof.
  intros Hf Hl Hrest. unfold field_here, startswith in *.
  rewrite removeprefix_line_None; [done | | | done].
  - rewrite lf_free_app. by rewrite Hf.
  - by destruct (removeprefix _ l).
Qed.

(** No line starts with the field: no match. *)
Lemma field_value_miss field ls :
  lf_free field = true ->
  Forall (fun l => lf_free l = true) ls ->
  Forall (fun l => startswith l (field +:+ ":") = false) ls ->
  field_value field (join_lines ls) = None.
Proof.
  intros Hf. unfold field_value.
  induction ls as [|l ls IH].
  { intros _ _. simpl. unfold field_here. by destruct field. }
  intros [Hl Hls]%Forall_cons [Hm Hms]%Forall_cons.
  destruct ls as [|l2 ls].
  - simpl join_lines. rewrite search_bol_miss.
    + by apply search_last_line.
    + rewrite <- (sapp_empty_r l). apply field_here_line_miss; [done..|by left].
  - rewrite join_lines_cons. rewrite search_bol_miss.
    + rewrite search_over_line by done. by apply IH.
    + apply field_here_line_miss; [done..|right; by eexists].
Qed.

(** The first line that starts with the field gives the value, when
    its value starts on that line. *)
Lemma field_value_hit field pre l post w v :
  lf_free field = true ->
  Forall (fun l => lf_free l = true) (pre ++ l :: post) ->
  Forall (fun l => startswith l (field +:+ ":") = false) pre ->
  l = field +:+ ":" +:+ w +:+ v ->
  all_space w = true -> starts_black v ->
  field_value field (join_lines (pre ++ l :: post)) = Some v.
Proof.
  intros Hf Hall Hpre -> Hw Hb. unfold field_value.
  induction pre as [|p pre IH].
  - change ([] ++ ?x) with x in *.
    apply Forall_cons in Hall as [Hl _].
    destruct (join_lines_head (field +:+ ":" +:+ w +:+ v) post)
      as (rest & -> & Hrest).
    assert (Hv : lf_free v = true).
    { rewrite <- !sapp_assoc, lf_free_app in Hl.
      by apply andb_true_iff in Hl as [_ ?]. }
    assert (Hhere : field_here field ((field +:+ ":" +:+ w +:+ v) +:+ rest)
                    = Some v).
    { unfold field_here.
      replace ((field +:+ ":" +:+ w +:+ v) +:+ rest)
        with ((field +:+ ":") +:+ (w +:+ v +:+ rest))
        by (by rewrite !sapp_assoc).
      rewrite removeprefix_app. by apply value_match_line. }
    destruct (_ +:+ rest); simpl; by rewrite Hhere.
  - rewrite <- app_comm_cons in *.
    apply Forall_cons in Hall as [Hp Hall].
    apply Forall_cons in Hpre as [Hm Hpre].
    destruct (pre ++ _ :: post) as [|l2 ls] eqn:Hls;
      [by destruct pre|].
    rewrite join_lines_cons. rewrite search_bol_miss.
    + rewrite search_over_line by done. by apply IH.
    + apply field_here_line_miss; [done..|right; by eexists].
Qed.

End DirectFacts.

(** * The matcher on the patterns of the script *)

Module SreFacts.
Import Py Sre Direct Agents PyFacts DirectFacts.

Lemma m_cat fl r1 r2 s caps k :
  m fl (r1 ⋅ r2) s caps k = m fl r1 s caps (fun s' caps' => m fl r2 s' caps' k).
Proof. done. Qed.

Lemma m_chr fl c prev d rest caps k :
  m fl (Chr c) (prev, String d rest) caps k
  = if Ascii.eqb c d then k (Some d, rest) caps else None.
Proof. done. Qed.

Lemma m_lit fl p prev s caps k :
  m fl (lit p) (prev, s) caps k
  = match removeprefix p s with
    | Some rest => k (prev_after prev p, rest) caps
    | None => None
    end.
Proof.
  revert prev s. induction p as [|c p IH]; intros prev s; [done|].
  cbn [lit]. rewrite m_cat. destruct s as [|d s]; [done|].
  rewrite m_chr. cbn [removeprefix prev_after].
  destruct (Ascii.eqb_spec c d) as [->|Hne]; [|done]. apply IH.
Qed.

Lemma length_app a b :
  String.length (a +:+ b) = String.length a + String.length b.
Proof. induction a as [|c a IH]; simpl; [done | by rewrite IH]. Qed.

Lemma substring_prefix a b : String.substring 0 (String.length a) (a +:+ b) = a.
Proof.
  induction a as [|c a IH]; simpl; [by destruct b | by rewrite IH].
Qed.

Lemma consumed_app p q a b : consumed (p, a +:+ b) (q, b) = a.
Proof.
  unfold consumed. simpl. rewrite length_app.
  replace (String.length a + String.length b - String.length b)
    with (String.length a) by lia.
  apply substring_prefix.
Qed.

Lemma consumed_all p q a : consumed (p, a) (q, "") = a.
Proof.
  unfold consumed. simpl. rewrite Nat.sub_0_r.
  induction a as [|c a IH]; simpl; [done | by rewrite IH].
Qed.

Lemma lt_length_cons d (rest : string) :
  (String.length rest <? String.length (String d rest)) = true.
Proof. apply Nat.ltb_lt. simpl. lia. Qed.

(** The greedy dot under DOTALL runs to the end of the text. *)
Lemma greedy_dot_all s fuel prev caps k res :
  (forall p, k (p, "") caps = Some res) ->
  String.length s < fuel ->
  loop true (m DOTALL Dot) fuel (prev, s) caps k = Some res.
Proof.
  intros Hk. revert fuel prev. induction s as [|d s IH]; intros fuel prev Hfuel.
  - destruct fuel as [|fuel]; [simpl in Hfuel; lia|]. simpl. apply Hk.
  - destruct fuel as [|fuel]; [simpl in Hfuel; lia|].
    cbn [loop m eat snd dotall DOTALL orb]. rewrite lt_length_cons.
    rewrite IH; [done | simpl in Hfuel; lia].
Qed.

(** The lazy dot under DOTALL stops at the first place where the rest
    of the pattern matches; [start] is where its group opened. *)
Lemma lazy_dot_until sep start pre s fuel prev caps k :
  (forall p t,
     k (p, t) caps
     = match removeprefix sep t with
       | Some rest => Some (caps ++ [consumed start (p, t); rest])
       | None => None
       end) ->
  start.2 = pre +:+ s ->
  String.length s < fuel ->
  loop false (m DOTALL Dot) fuel (prev, s) caps k
  = match lazy_until sep s with
    | Some (g1, g2) => Some (caps ++ [pre +:+ g1; g2])
    | None => None
    end.
Proof.
  intros Hk. destruct start as [p0 s0]. simpl.
  revert fuel prev pre. induction s as [|d s IH]; intros fuel prev pre -> Hfuel;
    (destruct fuel as [|fuel]; [simpl in Hfuel; lia|]).
  - cbn [loop lazy_until]. rewrite Hk.
    destruct (removeprefix sep "") as [rest|]; [|done].
    by rewrite consumed_app, sapp_empty_r.
  - cbn [loop lazy_until]. rewrite Hk.
    destruct (removeprefix sep (String d s)) as [rest|].
    { by rewrite consumed_app, sapp_empty_r. }
    cbn [m eat snd dotall DOTALL orb]. rewrite lt_length_cons.
    rewrite (IH fuel (Some d) (pre +:+ String d "")).
    + destruct (lazy_until sep s) as [[g1 g2]|]; [|done].
      by rewrite sapp_assoc.
    + by rewrite sapp_assoc.
    + simpl in Hfuel. lia.
Qed.

Lemma m_bol fl s caps k :
  m fl Bol s caps k = if at_bol fl s then k s caps else None.
Proof. done. Qed.

Lemma m_eol fl s caps k :
  m fl Eol s caps k = if at_eol fl s then k s caps else None.
Proof. done. Qed.

Lemma m_group fl r s caps k :
  m fl (Group r) s caps k
  = m fl r s caps (fun s' caps' => k s' (caps' ++ [consumed s s'])).
Proof. done. Qed.

Lemma m_star fl r s caps k :
  m fl (Star r) s caps k = loop true (m fl r) (S (String.length s.2)) s caps k.
Proof. done. Qed.

Lemma m_lazystar fl r s caps k :
  m fl (LazyStar r) s caps k
  = loop false (m fl r) (S (String.length s.2)) s caps k.
Proof. done. Qed.

Lemma m_plus fl r s caps k :
  m fl (Plus r) s caps k
  = m fl r s caps (fun s' caps' =>
      loop true (m fl r) (S (String.length s'.2)) s' caps' k).
Proof. done. Qed.

Lemma frontmatter_re_match content :
  re_match frontmatter_re content DOTALL = two_groups (frontmatter_split content).
Proof.
  unfold re_match, frontmatter_re, frontmatter_split.
  rewrite m_cat, m_bol. cbn [at_bol fst]. rewrite m_cat, m_lit.
  destruct (removeprefix ("---" +:+ nl) content) as [c1|]; [|done].
  rewrite m_cat, m_group, m_lazystar.
  rewrite (lazy_dot_until (nl +:+ "---" +:+ nl) (prev_after None ("---" +:+ nl), c1) "" c1);
    [by destruct (lazy_until _ c1) as [[g1 g2]|] | | done | simpl; lia].
  intros p t. rewrite m_cat, m_lit.
  destruct (removeprefix (nl +:+ "---" +:+ nl) t) as [rest|]; [|done].
  rewrite m_group, m_star.
  rewrite (greedy_dot_all rest _ _ _ _ ([] ++ [consumed (prev_after None ("---" +:+ nl), c1) (p, t)] ++ [rest]));
    [done | | simpl; lia].
  intros q. unfold accept. by rewrite consumed_all.
Qed.

Lemma at_eol_multiline p t : at_eol MULTILINE (p, t) = line_end t.
Proof.
  destruct t as [|c t]; [done|]. unfold at_eol. simpl.
  by destruct (is_lf c).
Qed.

(** The greedy dot without DOTALL runs to the end of the line, where
    [$] holds. *)
Lemma greedy_dot_line start pre t fuel q caps k :
  (forall p u,
     k (p, u) caps
     = if line_end u then Some (caps ++ [consumed start (p, u)]) else None) ->
  start.2 = pre +:+ t ->
  String.length t < fuel ->
  loop true (m MULTILINE Dot) fuel (q, t) caps k
  = match dot_plus_eol t with
    | Some g => Some (caps ++ [pre +:+ g])
    | None => if line_end t then Some (caps ++ [pre]) else None
    end.
Proof.
  intros Hk. destruct start as [p0 s0]. simpl.
  revert fuel q pre. induction t as [|d t IH]; intros fuel q pre -> Hfuel;
    (destruct fuel as [|fuel]; [simpl in Hfuel; lia|]).
  - cbn [loop m eat snd dot_plus_eol]. rewrite Hk. simpl.
    by rewrite consumed_app.
  - cbn [loop m eat snd dot_plus_eol dotall MULTILINE orb].
    destruct (is_lf d) eqn:Hd; cbn [negb].
    + rewrite Hk. simpl. rewrite Hd. by rewrite consumed_app.
    + rewrite lt_length_cons.
      rewrite (IH fuel (Some d) (pre +:+ String d ""));
        [| by rewrite sapp_assoc | simpl in Hfuel; lia].
      destruct (dot_plus_eol t) as [g|].
      * by rewrite sapp_assoc.
      * destruct (line_end t); [done|].
        rewrite Hk. simpl. by rewrite Hd.
Qed.

Lemma plus_dot_eol p s caps :
  m MULTILINE (Group (Plus Dot) ⋅ Eol) (p, s) caps accept
  = match dot_plus_eol s with
    | Some g => Some (caps ++ [g])
    | None => None
    end.
Proof.
  rewrite m_cat, m_group, m_plus.
  destruct s as [|c s]; [done|].
  cbn [m eat snd dot_plus_eol dotall MULTILINE orb].
  destruct (is_lf c); [done|]. cbn [negb].
  rewrite (greedy_dot_line (p, String c s) (String c "") s); [| | done | simpl; lia].
  - destruct (dot_plus_eol s) as [g|]; [done|]. by destruct (line_end s).
  - intros q u. by rewrite at_eol_multiline.
Qed.

(** The greedy white space gives back what the value needs. *)
Lemma greedy_space_value r fuel p caps k :
  (forall q t,
     k (q, t) caps
     = match dot_plus_eol t with
       | Some g => Some (caps ++ [g])
       | None => None
       end) ->
  String.length r < fuel ->
  loop true (m MULTILINE Space) fuel (p, r) caps k
  = match value_match r with
    | Some g => Some (caps ++ [g])
    | None => None
    end.
Proof.
  intros Hk. revert fuel p. induction r as [|c r IH]; intros fuel p Hfuel;
    (destruct fuel as [|fuel]; [simpl in Hfuel; lia|]).
  - cbn [loop m eat snd value_match]. by rewrite Hk.
  - cbn [loop m eat snd value_match].
    destruct (isspace c).
    + rewrite lt_length_cons. rewrite IH by (simpl in Hfuel; lia).
      destruct (value_match r) as [g|]; [done|]. by rewrite Hk.
    + by rewrite Hk.
Qed.

Lemma field_re_here field prev s :
  m MULTILINE (field_re field) (prev, s) [] accept
  = if at_bol MULTILINE (prev, s) then one_group (field_here field s) else None.
Proof.
  unfold field_re, field_here. rewrite m_cat, m_bol.
  destruct (at_bol MULTILINE (prev, s)); [|done].
  rewrite m_cat, m_lit.
  destruct (removeprefix (field +:+ ":") s) as [r|]; [|done].
  rewrite m_cat, m_star.
  rewrite greedy_space_value; [by destruct (value_match r) | | simpl; lia].
  intros q t. apply plus_dot_eol.
Qed.

Lemma search_at_field field prev s :
  search_at MULTILINE (field_re field) prev s
  = one_group (search_from field (at_bol MULTILINE (prev, s)) s).
Proof.
  revert prev. induction s as [|c s IH]; intros prev.
  - cbn [search_at search_from]. rewrite field_re_here.
    destruct (at_bol MULTILINE (prev, "")); [|done].
    by destruct (field_here field "").
  - cbn [search_at search_from]. rewrite field_re_here.
    assert (Hnext : at_bol MULTILINE (Some c, s) = is_lf c) by done.
    destruct (at_bol MULTILINE (prev, String c s)).
    + destruct (field_here field (String c s)); [done|].
      by rewrite IH, Hnext.
    + by rewrite IH, Hnext.
Qed.

Lemma field_re_search field text :
  re_search (field_re field) text MULTILINE = one_group (field_value field text).
Proof. unfold re_search, field_value. by rewrite search_at_field. Qed.

End SreFacts.

(** * Facts about the script *)

Module AgentsFacts.
Import Py Sre Direct Agents PyFacts DirectFacts SreFacts.

(** ** The merge *)

Lemma merge_agent_ok settings agent_id entry :
  store_ok settings ->
  merge_agent settings agent_id entry = inr (put_agent settings agent_id entry).
Proof.
  intros (top & -> & [Hnone | [agents Hsome]]); simpl.
  - rewrite Hnone, lookup_insert_eq, insert_insert_eq.
    by rewrite insert_empty.
  - by rewrite Hsome, Hsome.
Qed.

Lemma merge_agent_inr settings agent_id entry settings' :
  merge_agent settings agent_id entry = inr settings' ->
  store_ok settings /\ settings' = put_agent settings agent_id entry.
Proof.
  intros Hm.
  assert (Hok : store_ok settings).
  { destruct settings as [| | | | | |top]; try done.
    exists top. split; [done|]. simpl in Hm.
    destruct (top !! "agents") as [x|] eqn:Hag; [|by left].
    rewrite Hag in Hm. destruct x; try done. right. by eexists. }
  split; [done|]. rewrite merge_agent_ok in Hm by done. by injection Hm.
Qed.

Lemma put_agent_ok settings agent_id entry :
  store_ok settings -> store_ok (put_agent settings agent_id entry).
Proof.
  intros (top & -> & _). eexists. split; [done|].
  right. eexists. by rewrite lookup_insert_eq.
Qed.

Lemma agents_of_put settings agent_id entry :
  store_ok settings ->
  agents_of (put_agent settings agent_id entry)
  = <[agent_id := entry]> (agents_of settings).
Proof. intros (top & -> & _). simpl. by rewrite lookup_insert_eq. Qed.

(** ** The identifier *)

(** For a file name with a single full stop, the one of [.md], the
    identifier is the name without its extension. *)
Lemma agent_id_of_plain base :
  dot_free base = true -> agent_id_of (base +:+ ".md") = base.
Proof.
  unfold agent_id_of, replace.
  induction base as [|c base IH]; [done|]. simpl.
  intros [Hc Hb]%andb_true_iff. apply negb_true_iff in Hc.
  unfold startswith. simpl. rewrite Ascii.eqb_sym in Hc. rewrite Hc.
  by rewrite IH.
Qed.

(** ** The loop body *)

Lemma process_file_action settings filename d :
  process_file settings filename d =
  match action_of filename d with
  | Pass => ([], inr settings)
  | Skip => ([OpenDoc filename], inr settings)
  | Die e => ([OpenDoc filename], inl e)
  | Put agent_id entry =>
      match merge_agent settings agent_id entry with
      | inl e => ([OpenDoc filename], inl e)
      | inr settings' =>
          ([OpenDoc filename; Printed ("Updated agent: " +:+ agent_id)],
           inr settings')
      end
  end.
Proof.
  unfold process_file, action_of, parse_agent.
  destruct (endswith filename ".md"); [|done].
  destruct d as [content|e]; [|done].
  unfold read_doc, bind, emit, ret, lift. cbn [app].
  destruct (re_match frontmatter_re content DOTALL) as [fm|]; [|done].
  destruct (re_search name_re _ MULTILINE) as [nm|]; [|done].
  destruct (re_search desc_re _ MULTILINE) as [dm|]; [|done].
  by destruct (merge_agent _ _ _).
Qed.

(** The parse in closed form. *)
Lemma parse_agent_direct content :
  parse_agent content =
  match frontmatter_split content with
  | Some (header, rest) =>
      match field_value "name" header, field_value "description" header with
      | Some name_g, Some desc_g => Some (strip name_g, strip desc_g, strip rest)
      | _, _ => None
      end
  | None => None
  end.
Proof.
  unfold parse_agent, name_re, desc_re. rewrite frontmatter_re_match.
  destruct (frontmatter_split content) as [[header rest]|]; [|done].
  cbn [two_groups]. change (group [header; rest] 1) with header.
  rewrite !field_re_search.
  destruct (field_value "name" header) as [n|]; [|done].
  by destruct (field_value "description" header) as [d|].
Qed.

Lemma frontmatter_re_match_Some content fm :
  re_match frontmatter_re content DOTALL = Some fm ->
  frontmatter_split content = Some (group fm 1, group fm 2).
Proof.
  rewrite frontmatter_re_match.
  destruct (frontmatter_split content) as [[header rest]|]; [|done].
  by intros [= <-].
Qed.

Lemma frontmatter_re_match_None content :
  frontmatter_split content = None ->
  re_match frontmatter_re content DOTALL = None.
Proof. intros Hs. by rewrite frontmatter_re_match, Hs. Qed.

(** ** The loop *)

Lemma puts_cons filename d rest :
  puts ((filename, d) :: rest) =
  match action_of filename d with
  | Put agent_id entry => (agent_id, entry) :: puts rest
  | _ => puts rest
  end.
Proof. unfold puts. simpl. by destruct (action_of filename d). Qed.

Lemma puts_app pre post : puts (pre ++ post) = puts pre ++ puts post.
Proof. unfold puts. apply omap_app. Qed.

Lemma loop_events_cons filename d rest :
  loop_events ((filename, d) :: rest) = events_of filename d ++ loop_events rest.
Proof. done. Qed.

Lemma process_all_cons settings filename d rest :
  process_all settings ((filename, d) :: rest) =
  bind (process_file settings filename d) (fun s => process_all s rest).
Proof. done. Qed.

(** A loop that no exception stops: its events and its result. *)
Lemma process_all_ok entries settings :
  no_die entries ->
  puts entries = [] \/ store_ok settings ->
  process_all settings entries
  = (loop_events entries, inr (fold_put settings (puts entries))).
Proof.
  revert settings. induction entries as [|[filename d] rest IH];
    intros settings Hnd Hok; [done|].
  apply Forall_cons in Hnd as [Hd Hnd].
  rewrite process_all_cons, process_file_action, puts_cons, loop_events_cons.
  rewrite puts_cons in Hok. unfold events_of, bind. unfold dies in Hd.
  destruct (action_of filename d) as [| |e|agent_id entry].
  - by rewrite IH.
  - by rewrite IH.
  - done.
  - destruct Hok as [|Hok]; [done|].
    rewrite merge_agent_ok by done.
    rewrite IH; [done | done |]. right. by apply put_agent_ok.
Qed.

(** A loop that ends without exception met no unreadable document
    and, if it merged anything, started from a store it accepts. *)
Lemma process_all_inr entries settings t settings' :
  process_all settings entries = (t, inr settings') ->
  no_die entries /\ (puts entries = [] \/ store_ok settings).
Proof.
  revert settings t settings'. induction entries as [|[filename d] rest IH];
    intros settings t settings'; [by split; [constructor | left]|].
  rewrite process_all_cons, process_file_action, puts_cons.
  unfold no_die, dies, bind.
  destruct (action_of filename d) as [| |e|agent_id entry] eqn:Ha.
  - destruct (process_all settings rest) as [t' [e|s']] eqn:Hrest; [done|].
    intros _. destruct (IH _ _ _ Hrest) as [Hnd Hok].
    split; [|done]. constructor; [by rewrite Ha | done].
  - destruct (process_all settings rest) as [t' [e|s']] eqn:Hrest; [done|].
    intros _. destruct (IH _ _ _ Hrest) as [Hnd Hok].
    split; [|done]. constructor; [by rewrite Ha | done].
  - done.
  - destruct (merge_agent settings agent_id entry) as [e|s1] eqn:Hm; [done|].
    apply merge_agent_inr in Hm as [Hok ->].
    destruct (process_all _ rest) as [t' [e|s']] eqn:Hrest; [done|].
    intros _. destruct (IH _ _ _ Hrest) as [Hnd _].
    split; [|by right]. constructor; [by rewrite Ha | done].
Qed.

Lemma process_all_inr_eq entries settings t settings' :
  process_all settings entries = (t, inr settings') ->
  t = loop_events entries /\ settings' = fold_put settings (puts entries).
Proof.
  intros Hrun. destruct (process_all_inr _ _ _ _ Hrun) as [Hnd Hok].
  rewrite process_all_ok in Hrun by done. by injection Hrun as <- <-.
Qed.

(** ** Folding the merges *)

Lemma fold_put_ok settings ops :
  store_ok settings -> store_ok (fold_put settings ops).
Proof.
  revert settings. induction ops as [|[agent_id entry] ops IH];
    intros settings Hok; [done|].
  simpl. apply IH. by apply put_agent_ok.
Qed.

Lemma agents_of_fold_put settings ops :
  store_ok settings ->
  agents_of (fold_put settings ops) = apply_puts (agents_of settings) ops.
Proof.
  revert settings. induction ops as [|[agent_id entry] ops IH];
    intros settings Hok; [done|].
  simpl. rewrite IH by (by apply put_agent_ok). by rewrite agents_of_put.
Qed.

(** The merges touch no other top-level key. *)
Lemma put_agent_frame top agent_id entry :
  exists top', put_agent (JObj top) agent_id entry = JObj top' /\
    forall k, k <> "agents" -> top' !! k = top !! k.
Proof.
  eexists. split; [done|]. intros k Hk. by rewrite lookup_insert_ne.
Qed.

Lemma fold_put_frame top ops :
  exists top', fold_put (JObj top) ops = JObj top' /\
    forall k, k <> "agents" -> top' !! k = top !! k.
Proof.
  revert top. induction ops as [|[agent_id entry] ops IH]; intros top.
  - by exists top.
  - change (fold_put (JObj top) ((agent_id, entry) :: ops))
      with (fold_put (put_agent (JObj top) agent_id entry) ops).
    destruct (put_agent_frame top agent_id entry) as (top1 & -> & H1).
    destruct (IH top1) as (top2 & -> & H2).
    exists top2. split; [done|]. intros k Hk. by rewrite H2, H1.
Qed.

(** The value of a key after the merges: the last one written. *)
Lemma apply_puts_app m ops1 ops2 :
  apply_puts m (ops1 ++ ops2) = apply_puts (apply_puts m ops1) ops2.
Proof. unfold apply_puts. apply foldl_app. Qed.

Lemma apply_puts_other m ops k :
  k ∉ ops.*1 -> apply_puts m ops !! k = m !! k.
Proof.
  revert m. induction ops as [|[agent_id entry] ops IH]; intros m Hk; [done|].
  simpl in *. apply not_elem_of_cons in Hk as [Hne Hk].
  rewrite IH by done. by rewrite lookup_insert_ne.
Qed.

Lemma apply_puts_last m ops1 k v ops2 :
  k ∉ ops2.*1 -> apply_puts m (ops1 ++ (k, v) :: ops2) !! k = Some v.
Proof.
  intros Hk. rewrite apply_puts_app. simpl.
  rewrite apply_puts_other by done. by rewrite lookup_insert_eq.
Qed.

Lemma apply_puts_absorb m ops k v :
  k ∈ ops.*1 -> apply_puts (<[k := v]> m) ops = apply_puts m ops.
Proof.
  revert m. induction ops as [|[k1 v1] ops IH]; intros m Hk; simpl in *.
  - by apply elem_of_nil in Hk.
  - destruct (decide (k1 = k)) as [->|Hne].
    + by rewrite insert_insert_eq.
    + rewrite insert_insert_ne by done. apply IH.
      apply elem_of_cons in Hk as [?|?]; [by subst|done].
Qed.

(** Merging the same entries again changes nothing. *)
Lemma apply_puts_twice m ops :
  apply_puts (apply_puts m ops) ops = apply_puts m ops.
Proof.
  revert m. induction ops as [|[k v] ops IH]; intros m; [done|].
  simpl. destruct (decide (k ∈ ops.*1)) as [Hin|Hout].
  - by rewrite apply_puts_absorb, IH.
  - rewrite insert_id; [by rewrite IH|].
    rewrite apply_puts_other by done. by rewrite lookup_insert_eq.
Qed.

Lemma fold_put_obj top ops :
  ops <> [] ->
  fold_put (JObj top) ops
  = JObj (<["agents" := JObj (apply_puts (agents_of (JObj top)) ops)]> top).
Proof.
  revert top. induction ops as [|[k v] ops IH]; intros top Hne; [done|].
  destruct ops as [|op ops]; [done|].
  change (fold_put (JObj top) ((k, v) :: op :: ops))
    with (fold_put (put_agent (JObj top) k v) (op :: ops)).
  unfold put_agent at 1. rewrite IH by done.
  cbn [agents_of]. by rewrite lookup_insert_eq, insert_insert_eq.
Qed.

Lemma fold_put_twice top ops :
  fold_put (fold_put (JObj top) ops) ops = fold_put (JObj top) ops.
Proof.
  destruct ops as [|op ops]; [done|].
  rewrite !fold_put_obj by done.
  cbn [agents_of]. rewrite lookup_insert_eq, insert_insert_eq.
  by rewrite apply_puts_twice.
Qed.

(** ** The whole run *)

Lemma dumps_loop_events entries : dumps (loop_events entries) = [].
Proof.
  induction entries as [|[filename d] rest IH]; [done|].
  rewrite loop_events_cons. unfold dumps in *. rewrite omap_app, IH.
  unfold events_of. by destruct (action_of filename d).
Qed.

(** The loop writes nothing, whether it ends or dies. *)
Lemma dumps_process_all entries settings :
  dumps (process_all settings entries).1 = [].
Proof.
  revert settings. induction entries as [|[filename d] rest IH];
    intros settings; [done|].
  rewrite process_all_cons, process_file_action. unfold bind.
  destruct (action_of filename d) as [| |e|agent_id entry]; try done.
  - specialize (IH settings).
    by destruct (process_all settings rest) as [t [e|s]].
  - specialize (IH settings).
    by destruct (process_all settings rest) as [t [e|s]].
  - destruct (merge_agent settings agent_id entry) as [e|s1]; [done|].
    specialize (IH s1). by destruct (process_all s1 rest) as [t [e|s]].
Qed.

Lemma run_listing w settings entries :
  settings_file w = Parsed settings ->
  agents_dir w = Listing entries ->
  run w =
  match process_all settings entries with
  | (t, inl e) => (t, inl e)
  | (t, inr settings') =>
      match agents_count settings' with
      | inl e => (t ++ [Dumped settings'], inl e)
      | inr count =>
          (t ++ [Dumped settings'; PrintedSummary count], inr tt)
      end
  end.
Proof.
  intros Hs Hd. unfold run. rewrite Hs, Hd.
  unfold load_settings, listdir, bind, ret, emit, lift.
  destruct (process_all settings entries) as [t [e|s']]; [done|].
  by destruct (agents_count s').
Qed.

Lemma settings_after_done w settings entries t settings' :
  settings_file w = Parsed settings ->
  agents_dir w = Listing entries ->
  process_all settings entries = (t, inr settings') ->
  settings_after w = Parsed settings'.
Proof.
  intros Hs Hd Hrun. unfold settings_after, last_dump.
  rewrite (run_listing _ _ _ Hs Hd), Hrun.
  pose proof (dumps_process_all entries settings) as Hnone.
  rewrite Hrun in Hnone. simpl in Hnone.
  destruct (agents_count settings'); simpl; unfold dumps in *;
    rewrite omap_app, Hnone; done.
Qed.

Lemma settings_after_died w settings entries t e :
  settings_file w = Parsed settings ->
  agents_dir w = Listing entries ->
  process_all settings entries = (t, inl e) ->
  settings_after w = Parsed settings.
Proof.
  intros Hs Hd Hrun. unfold settings_after, last_dump.
  rewrite (run_listing _ _ _ Hs Hd), Hrun.
  pose proof (dumps_process_all entries settings) as Hnone.
  rewrite Hrun in Hnone. simpl in *. by rewrite Hnone.
Qed.

Lemma settings_after_no_directory w :
  agents_dir w = NoDirectory -> settings_after w = settings_file w.
Proof.
  intros Hd. unfold settings_after, run. rewrite Hd.
  by destruct (settings_file w).
Qed.

Lemma run_load_error w :
  settings_file w = Missing \/ settings_file w = Malformed ->
  exists e, run w = ([], inl e).
Proof. unfold run. intros [-> | ->]; by eexists. Qed.

Lemma settings_after_load_error w :
  settings_file w = Missing \/ settings_file w = Malformed ->
  settings_after w = settings_file w.
Proof.
  intros Hs. unfold settings_after, last_dump.
  by destruct (run_load_error w Hs) as [e ->].
Qed.

Lemma run_done_inv w settings entries :
  settings_file w = Parsed settings ->
  agents_dir w = Listing entries ->
  (run w).2 = inr tt ->
  exists t settings', process_all settings entries = (t, inr settings').
Proof.
  intros Hs Hd. rewrite (run_listing _ _ _ Hs Hd).
  destruct (process_all settings entries) as [t [e|s']]; [done|].
  by eexists _, _.
Qed.

Lemma stdout_app t1 t2 : stdout (t1 ++ t2) = stdout t1 ++ stdout t2.
Proof. unfold stdout. apply omap_app. Qed.

Lemma stdout_loop_events entries :
  stdout (loop_events entries)
  = map (fun agent_id => Line ("Updated agent: " +:+ agent_id)) (puts entries).*1.
Proof.
  induction entries as [|[filename d] rest IH]; [done|].
  rewrite loop_events_cons, puts_cons. unfold stdout in *.
  rewrite omap_app, IH. unfold events_of.
  by destruct (action_of filename d).
Qed.

Lemma agents_count_ok settings :
  store_ok settings -> agents_count settings = inr (size (agents_of settings)).
Proof.
  intros (top & -> & [Hnone | [agents Hsome]]); simpl.
  - by rewrite Hnone.
  - by rewrite Hsome.
Qed.

Lemma apply_puts_keeps m ops k :
  is_Some (m !! k) -> is_Some (apply_puts m ops !! k).
Proof.
  revert m. induction ops as [|[k1 v1] ops IH]; intros m Hk; [done|].
  simpl. apply IH. destruct (decide (k1 = k)) as [->|Hne].
  - by rewrite lookup_insert_eq.
  - by rewrite lookup_insert_ne.
Qed.

(** The identifier of a merged entry is that of its file. *)
Lemma action_of_put filename d agent_id entry :
  action_of filename d = Put agent_id entry -> agent_id = agent_id_of filename.
Proof.
  unfold action_of. destruct (endswith filename ".md"); [|done].
  destruct d as [content|e]; [|done].
  destruct (parse_agent content) as [[[n ds] b]|]; [|done].
  by intros [= <- _].
Qed.

Lemma puts_other_ids entries agent_id :
  Forall (fun '(filename, _) => agent_id_of filename <> agent_id) entries ->
  agent_id ∉ (puts entries).*1.
Proof.
  induction entries as [|[filename d] rest IH]; intros Hall.
  - apply not_elem_of_nil.
  - apply Forall_cons in Hall as [Hne Hall]. rewrite puts_cons.
    destruct (action_of filename d) as [| |e|id entry] eqn:Ha;
      try (by apply IH).
    simpl. apply not_elem_of_cons. split; [|by apply IH].
    apply action_of_put in Ha as ->. done.
Qed.

(** The last document merged under an identifier decides its entry. *)
Lemma last_put_wins w settings pre filename d post agent_id entry :
  settings_file w = Parsed settings ->
  agents_dir w = Listing (pre ++ (filename, d) :: post) ->
  action_of filename d = Put agent_id entry ->
  agent_id ∉ (puts post).*1 ->
  (run w).2 = inr tt ->
  exists final, settings_after w = Parsed final /\
    agents_of final !! agent_id = Some entry.
Proof.
  intros Hs Hd Ha Hlast Hdone.
  destruct (run_done_inv _ _ _ Hs Hd Hdone) as (t & final & Hrun).
  exists final. split; [by apply (settings_after_done _ _ _ _ _ Hs Hd Hrun)|].
  destruct (process_all_inr _ _ _ _ Hrun) as [_ Hok].
  apply process_all_inr_eq in Hrun as [_ ->].
  rewrite puts_app, puts_cons, Ha in *.
  destruct Hok as [Hnil | Hok]; [by destruct (puts pre)|].
  rewrite agents_of_fold_put by done. by apply apply_puts_last.
Qed.

(** A document that is skipped leaves the entries of its identifier
    to the other documents. *)
Lemma skipped_entry_untouched w settings pre filename d post agent_id :
  settings_file w = Parsed settings ->
  agents_dir w = Listing (pre ++ (filename, d) :: post) ->
  action_of filename d = Skip ->
  agent_id ∉ (puts (pre ++ post)).*1 ->
  exists final, settings_after w = Parsed final /\
    agents_of final !! agent_id = agents_of settings !! agent_id.
Proof.
  intros Hs Hd Ha Hother.
  destruct (process_all settings (pre ++ (filename, d) :: post))
    as [t [e|final]] eqn:Hrun.
  - exists settings. by rewrite (settings_after_died _ _ _ _ _ Hs Hd Hrun).
  - exists final. split; [by apply (settings_after_done _ _ _ _ _ Hs Hd Hrun)|].
    destruct (process_all_inr _ _ _ _ Hrun) as [_ Hok].
    apply process_all_inr_eq in Hrun as [_ ->].
    rewrite puts_app, puts_cons, Ha, <- puts_app in *.
    destruct Hok as [-> | Hok]; [done|].
    rewrite agents_of_fold_put by done. by apply apply_puts_other.
Qed.

(** ** Documents that are skipped *)

Lemma frontmatter_split_needs_closing content :
  "---" ∉ tail (split_lines content) -> frontmatter_split content = None.
Proof.
  intros Hno. destruct (frontmatter_split content) as [[h r]|] eqn:Hm; [|done].
  apply frontmatter_split_lines in Hm. rewrite Hm in Hno. simpl in Hno.
  exfalso. apply Hno. apply elem_of_app. right. by left.
Qed.

Lemma field_value_needs_line field text :
  lf_free field = true ->
  Forall (fun l => startswith l (field +:+ ":") = false) (split_lines text) ->
  field_value field text = None.
Proof.
  intros Hf Hall. rewrite <- (join_split_lines text).
  apply field_value_miss; [done | apply split_lines_lf_free | done].
Qed.

Lemma action_of_unparsed filename content :
  endswith filename ".md" = true ->
  parse_agent content = None ->
  action_of filename (TextFile content) = Skip.
Proof. intros Hmd Hp. unfold action_of. by rewrite Hmd, Hp. Qed.

Lemma process_file_skip settings filename content :
  endswith filename ".md" = true ->
  parse_agent content = None ->
  process_file settings filename (TextFile content)
  = ([OpenDoc filename], inr settings).
Proof.
  intros Hmd Hp. by rewrite process_file_action, action_of_unparsed.
Qed.

End AgentsFacts.

(** * The properties of the specification *)

Module Properties.
Import Py Sre Direct Agents PyFacts DirectFacts SreFacts AgentsFacts.

Lemma world_eta w : World (settings_file w) (agents_dir w) = w.
Proof. by destruct w. Qed.

(** C1 (preservation).  Every top-level key other than [agents] that
    the settings store holds before the run holds the same value in
    the settings file after the run, whether the run ends or dies. *)
Theorem other_keys_preserved w top k v :
  settings_file w = Parsed (JObj top) ->
  k <> "agents" ->
  top !! k = Some v ->
  exists top', settings_after w = Parsed (JObj top') /\ top' !! k = Some v.
Proof.
  intros Hs Hk Hv.
  destruct (agents_dir w) as [|entries] eqn:Hd.
  { exists top. by rewrite settings_after_no_directory. }
  destruct (process_all (JObj top) entries) as [t [e|s']] eqn:Hrun.
  - exists top. by rewrite (settings_after_died _ _ _ _ _ Hs Hd Hrun).
  - rewrite (settings_after_done _ _ _ _ _ Hs Hd Hrun).
    apply process_all_inr_eq in Hrun as [_ ->].
    destruct (fold_put_frame top (puts entries)) as (top' & -> & Hframe).
    exists top'. split; [done|]. by rewrite Hframe.
Qed.

(** C9 (fatal load).  When the settings file is missing or is no valid
    JSON the run dies at once: no event at all, so no document is
    opened and nothing is written, and the settings file is as it
    was. *)
Theorem settings_load_error_aborts w :
  settings_file w = Missing \/ settings_file w = Malformed ->
  (exists e, run w = ([], inl e)) /\
  opened (run w).1 = [] /\
  dumps (run w).1 = [] /\
  settings_after w = settings_file w.
Proof.
  intros Hs. pose proof (settings_after_load_error w Hs) as Hafter.
  destruct (run_load_error w Hs) as [e He]. rewrite He.
  split; [by exists e | done].
Qed.

(** C6 (idempotence).  Running the script again on what the first run
    left, with the same directory, leaves the same settings file, hence
    the same [agents] mapping. *)
Theorem second_run_changes_nothing w :
  settings_after (world_after w) = settings_after w /\
  (forall s1 s2,
     settings_after w = Parsed s1 ->
     settings_after (world_after w) = Parsed s2 ->
     agents_of s2 = agents_of s1).
Proof.
  assert (Hmain : settings_after (world_after w) = settings_after w).
  { assert (Hsame : settings_after w = settings_file w ->
                    settings_after (world_after w) = settings_after w).
    { intros Heq. unfold world_after. by rewrite Heq, world_eta. }
    destruct (settings_file w) as [| |settings] eqn:Hs.
    - apply Hsame. rewrite <- Hs. apply settings_after_load_error. by left.
    - apply Hsame. rewrite <- Hs. apply settings_after_load_error. by right.
    - destruct (agents_dir w) as [|entries] eqn:Hd.
      { apply Hsame. rewrite <- Hs. by apply settings_after_no_directory. }
      destruct (process_all settings entries) as [t [e|s1]] eqn:Hrun.
      { apply Hsame. by rewrite (settings_after_died _ _ _ _ _ Hs Hd Hrun). }
      rewrite (settings_after_done _ _ _ _ _ Hs Hd Hrun).
      destruct (process_all_inr _ _ _ _ Hrun) as [Hnd Hok].
      apply process_all_inr_eq in Hrun as [_ ->].
      eapply (settings_after_done (world_after w) _ entries); [| done |].
      + unfold world_after. simpl.
        by rewrite (settings_after_done _ _ _ _ _ Hs Hd
                      (process_all_ok _ _ Hnd Hok)).
      + rewrite process_all_ok; [| done |].
        * destruct Hok as [-> | (top & -> & _)]; [done|].
          by rewrite fold_put_twice.
        * destruct Hok as [? | Hok]; [by left|]. right. by apply fold_put_ok.
  }
  split; [done|]. intros s1 s2 H1 H2. rewrite Hmain, H1 in H2.
  by injection H2 as <-.
Qed.

(** C8 (count and progress lines).  A run that ends, started from a
    store whose [agents] is absent or a mapping, prints one line
    [Updated agent: <identifier>] for each merged document, in the
    order of the directory, and then the number of keys of the [agents]
    mapping it wrote; the keys that were there before the run are
    still counted. *)
Theorem summary_counts_agents w settings entries :
  settings_file w = Parsed settings ->
  agents_dir w = Listing entries ->
  store_ok settings ->
  (run w).2 = inr tt ->
  exists final,
    settings_after w = Parsed final /\
    stdout (run w).1
    = map (fun agent_id => Line ("Updated agent: " +:+ agent_id))
          (puts entries).*1
      ++ [SummaryLine (size (agents_of final))] /\
    (forall k, is_Some (agents_of settings !! k) ->
               is_Some (agents_of final !! k)).
Proof.
  intros Hs Hd Hok Hdone.
  destruct (run_done_inv _ _ _ Hs Hd Hdone) as (t & final & Hrun).
  exists final. split; [by apply (settings_after_done _ _ _ _ _ Hs Hd Hrun)|].
  rewrite (run_listing _ _ _ Hs Hd), Hrun.
  apply process_all_inr_eq in Hrun as [-> ->].
  rewrite agents_count_ok by (by apply fold_put_ok). split.
  - cbn [fst]. by rewrite stdout_app, stdout_loop_events.
  - intros k Hk. rewrite agents_of_fold_put by done.
    by apply apply_puts_keeps.
Qed.

(** C5 (skip on malformed input).  A document without a closing
    [---] line, or whose header has no line starting with [name:], is
    opened and then skipped: the loop body leaves the store as it is and
    prints nothing.  When no other file of the directory has the same
    identifier, the settings file after the run has under that
    identifier what it had before: nothing, or the old entry. *)
Theorem malformed_document_skipped w settings pre filename content post :
  settings_file w = Parsed settings ->
  agents_dir w = Listing (pre ++ (filename, TextFile content) :: post) ->
  endswith filename ".md" = true ->
  ("---" ∉ tail (split_lines content) \/
   exists frontmatter_match,
     re_match frontmatter_re content DOTALL = Some frontmatter_match /\
     Forall (fun l => startswith l "name:" = false)
            (split_lines (group frontmatter_match 1))) ->
  Forall (fun '(other, _) => agent_id_of other <> agent_id_of filename)
         (pre ++ post) ->
  (forall s, process_file s filename (TextFile content)
             = ([OpenDoc filename], inr s)) /\
  exists final,
    settings_after w = Parsed final /\
    agents_of final !! agent_id_of filename
    = agents_of settings !! agent_id_of filename.
Proof.
  intros Hs Hd Hmd Hbad Hother.
  assert (Hp : parse_agent content = None).
  { rewrite parse_agent_direct. destruct Hbad as [Hno | (fm & Hm & Hall)].
    - by rewrite frontmatter_split_needs_closing.
    - rewrite (frontmatter_re_match_Some _ _ Hm).
      by rewrite (field_value_needs_line "name" (group fm 1)). }
  split; [intros s; by apply process_file_skip|].
  apply (skipped_entry_untouched w settings pre filename (TextFile content) post);
    [done | done | by apply action_of_unparsed | by apply puts_other_ids].
Qed.

(** C10 (closing line without line feed).  When the closing [---] is
    the last line of the document and no line feed follows it, the
    pattern does not match and the document is skipped. *)
Theorem unterminated_closing_line_skipped content first middle :
  split_lines content = first :: middle ++ ["---"] ->
  "---" ∉ middle ->
  re_match frontmatter_re content DOTALL = None /\
  (forall settings filename,
     endswith filename ".md" = true ->
     process_file settings filename (TextFile content)
     = ([OpenDoc filename], inr settings)).
Proof.
  intros Hlines Hmid.
  assert (Hm : frontmatter_split content = None).
  { destruct (frontmatter_split content) as [[h r]|] eqn:Hm; [|done].
    apply frontmatter_split_lines in Hm. rewrite Hm in Hlines.
    injection Hlines as _ Hlines.
    pose proof (split_lines_nonempty r) as Hr.
    destruct (split_lines r) as [|x xs _] using rev_ind; [done|].
    change (split_lines h ++ "---" :: xs ++ [x])
      with (split_lines h ++ ("---" :: xs) ++ [x]) in Hlines.
    rewrite app_assoc in Hlines. apply app_inj_tail in Hlines as [Hlines _].
    exfalso. apply Hmid. rewrite <- Hlines.
    apply elem_of_app. right. by left. }
  split; [by apply frontmatter_re_match_None|]. intros settings filename Hmd.
  apply process_file_skip; [done|]. by rewrite parse_agent_direct, Hm.
Qed.

(** C7 (overwrite).  When the store has an entry under the identifier
    of a document that parses, and no later file has that identifier,
    the entry after a run that ends is made of the three parsed strings
    and of nothing else, whatever the old entry was. *)
Theorem entry_replaced_wholesale
    w settings pre filename content post old
    frontmatter_match name_match desc_match :
  settings_file w = Parsed settings ->
  agents_dir w = Listing (pre ++ (filename, TextFile content) :: post) ->
  endswith filename ".md" = true ->
  agents_of settings !! agent_id_of filename = Some old ->
  re_match frontmatter_re content DOTALL = Some frontmatter_match ->
  re_search name_re (group frontmatter_match 1) MULTILINE = Some name_match ->
  re_search desc_re (group frontmatter_match 1) MULTILINE = Some desc_match ->
  Forall (fun '(other, _) => agent_id_of other <> agent_id_of filename) post ->
  (run w).2 = inr tt ->
  exists final,
    settings_after w = Parsed final /\
    agents_of final !! agent_id_of filename
    = Some (JObj (<["name" := JStr (strip (group name_match 1))]>
                 (<["description" := JStr (strip (group desc_match 1))]>
                 (<["systemPrompt" := JStr (strip (group frontmatter_match 2))]>
                  ∅)))).
Proof.
  intros Hs Hd Hmd _ Hm Hn Hds Hlater Hdone.
  apply (last_put_wins w settings pre filename (TextFile content) post);
    [done | done | | by apply puts_other_ids | done].
  unfold action_of, parse_agent. by rewrite Hmd, Hm, Hn, Hds.
Qed.

Lemma find_first_split (P : string -> bool) ls x :
  List.find P ls = Some x ->
  exists pre post,
    ls = pre ++ x :: post /\ Forall (fun l => P l = false) pre /\ P x = true.
Proof.
  induction ls as [|l ls IH]; [done|]. simpl.
  destruct (P l) eqn:Hl.
  - intros [= ->]. by exists [], ls.
  - intros (pre & post & -> & Hpre & Hx)%IH.
    exists (l :: pre), post. split; [done|]. split; [by constructor | done].
Qed.

(** C2 (well-formed input).  Take a document made of an opening [---]
    line, header lines of which the first that starts with [name:] is
    [name: Foo] and the first that starts with [description:] is
    [description: Bar], none of them being [---], a closing [---] line,
    and a rest that is [Hello world] once stripped.  When no later file
    has the same identifier, a run that ends leaves under the
    identifier of the document exactly the entry with name [Foo],
    description [Bar] and systemPrompt [Hello world]. *)
Theorem well_formed_document_entry
    w settings pre filename post header rest :
  settings_file w = Parsed settings ->
  agents_dir w
  = Listing (pre ++ (filename,
                     TextFile ("---" +:+ nl +:+ join_lines header +:+ nl
                               +:+ "---" +:+ nl +:+ rest)) :: post) ->
  endswith filename ".md" = true ->
  Forall (fun l => lf_free l = true) header ->
  "---" ∉ header ->
  first_line_with "name:" header = Some "name: Foo" ->
  first_line_with "description:" header = Some "description: Bar" ->
  strip rest = "Hello world" ->
  Forall (fun '(other, _) => agent_id_of other <> agent_id_of filename) post ->
  (run w).2 = inr tt ->
  exists final,
    settings_after w = Parsed final /\
    agents_of final !! agent_id_of filename
    = Some (JObj (<["name" := JStr "Foo"]>
                 (<["description" := JStr "Bar"]>
                 (<["systemPrompt" := JStr "Hello world"]> ∅)))).
Proof.
  intros Hs Hd Hmd Hlf Hdelim Hname Hdesc Hbody Hlater Hdone.
  eapply last_put_wins; [done | done | | by apply puts_other_ids | done].
  unfold action_of. rewrite Hmd, parse_agent_direct.
  rewrite frontmatter_split_join; [| by intros -> | done |].
  - apply find_first_split in Hname as (pre1 & post1 & E1 & Hmiss1 & _).
    apply find_first_split in Hdesc as (pre2 & post2 & E2 & Hmiss2 & _).
    rewrite E1 at 1.
    rewrite (field_value_hit "name" pre1 "name: Foo" post1 " " "Foo");
      [| done | by rewrite <- E1 | done | done | done | done].
    rewrite E2.
    rewrite (field_value_hit "description" pre2 "description: Bar" post2
               " " "Bar");
      [| done | by rewrite <- E2 | done | done | done | done].
    by rewrite Hbody.
  - intros Hin. apply Hdelim. destruct header; [done|]. by right.
Qed.

(** C3 (identifier).  The file [notes.md.md] ends with [.md] and is
    processed; the script stores its entry under [notes], because
    [replace] removes every [.md], whereas the file name without its
    extension is [notes.md]. *)
Theorem identifier_drops_inner_md :
  endswith "notes.md.md" ".md" = true /\
  spec_identifier "notes.md.md" = "notes.md" /\
  agent_id_of "notes.md.md" = "notes" /\
  exists final,
    settings_after
      (World (Parsed (JObj ∅))
             (Listing [("notes.md.md", TextFile (doc "Foo" "Bar" "Hello world"))]))
    = Parsed final /\
    agents_of final !! "notes.md" = None /\
    agents_of final !! "notes"
    = Some (agent_entry "Foo" "Bar" "Hello world").
Proof.
  split; [done|]. split; [done|]. split; [done|].
  eexists. split; [by vm_compute|]. split; by vm_compute.
Qed.

(** C4 (field extraction).  In the header whose lines are [name:] and
    [description: Bar] the first line that starts with [name:] has
    nothing after the colon, and the script takes as name the whole
    next line: the white space that the pattern allows before the value
    runs over the line feed. *)
Theorem field_value_taken_from_next_line :
  let header := join_lines ["name:"; "description: Bar"] in
  split_lines header = ["name:"; "description: Bar"] /\
  first_line_with "name:" (split_lines header) = Some "name:" /\
  re_search name_re header MULTILINE = Some ["description: Bar"] /\
  exists final,
    settings_after
      (World (Parsed (JObj ∅))
             (Listing [("a.md",
                        TextFile (join_lines ["---"; "name:"; "description: Bar";
                                              "---"; "Hello world"]))]))
    = Parsed final /\
    agents_of final !! "a"
    = Some (agent_entry "description: Bar" "Bar" "Hello world").
Proof.
  split; [done|]. split; [done|]. split; [done|].
  eexists. split; by vm_compute.
Qed.

(** ** The properties at work *)

(** The scenario of the specification: three documents that parse, two
    that do not, one entry that no file stands for; the count is 4. *)
Example count_scenario :
  stdout (run demo_world).1
  = [Line "Updated agent: a"; Line "Updated agent: b";
     Line "Updated agent: c"; SummaryLine 4].
Proof. by vm_compute. Qed.

Lemma demo_store_ok : store_ok (JObj demo_top).
Proof.
  exists demo_top. split; [reflexivity|]. right. eexists. by vm_compute.
Defined.

Lemma other_keys_preserved_witness :
  exists top', settings_after demo_world = Parsed (JObj top') /\
               top' !! "theme" = Some (JStr "dark").
Proof.
  apply (other_keys_preserved demo_world demo_top "theme" (JStr "dark"));
    [reflexivity | discriminate | by vm_compute].
Defined.

Lemma settings_load_error_aborts_witness :
  (exists e, run (World Missing (Listing demo_dir)) = ([], inl e)) /\
  opened (run (World Missing (Listing demo_dir))).1 = [] /\
  dumps (run (World Missing (Listing demo_dir))).1 = [] /\
  settings_after (World Missing (Listing demo_dir)) = Missing.
Proof.
  apply (settings_load_error_aborts (World Missing (Listing demo_dir))).
  left. reflexivity.
Defined.

Lemma second_run_changes_nothing_witness :
  settings_after (world_after demo_world) = settings_after demo_world /\
  (forall s1 s2,
     settings_after demo_world = Parsed s1 ->
     settings_after (world_after demo_world) = Parsed s2 ->
     agents_of s2 = agents_of s1).
Proof. exact (second_run_changes_nothing demo_world). Defined.

Lemma summary_counts_agents_witness :
  exists final,
    settings_after demo_world = Parsed final /\
    stdout (run demo_world).1
    = map (fun agent_id => Line ("Updated agent: " +:+ agent_id))
          (puts demo_dir).*1
      ++ [SummaryLine (size (agents_of final))] /\
    (forall k, is_Some (agents_of (JObj demo_top) !! k) ->
               is_Some (agents_of final !! k)).
Proof.
  apply (summary_counts_agents demo_world (JObj demo_top) demo_dir);
    [reflexivity | reflexivity | exact demo_store_ok | by vm_compute].
Defined.

Lemma malformed_document_skipped_witness :
  (forall s,
     process_file s "d.md"
       (TextFile (join_lines ["---"; "name: Delta"; "description: Open"]))
     = ([OpenDoc "d.md"], inr s)) /\
  exists final,
    settings_after demo_world = Parsed final /\
    agents_of final !! agent_id_of "d.md"
    = agents_of (JObj demo_top) !! agent_id_of "d.md".
Proof.
  apply (malformed_document_skipped demo_world (JObj demo_top)
           [("a.md", TextFile (doc "Alpha" "First" "Do this."))]
           "d.md"
           (join_lines ["---"; "name: Delta"; "description: Open"])
           (drop 2 demo_dir));
    [reflexivity | reflexivity | reflexivity | left; compute_done |].
  repeat constructor; by vm_compute.
Defined.

Lemma unterminated_closing_line_skipped_witness :
  re_match frontmatter_re
    (join_lines ["---"; "name: Foo"; "description: Bar"; "---"]) DOTALL
  = None /\
  (forall settings filename,
     endswith filename ".md" = true ->
     process_file settings filename
       (TextFile (join_lines ["---"; "name: Foo"; "description: Bar"; "---"]))
     = ([OpenDoc filename], inr settings)).
Proof.
  apply (unterminated_closing_line_skipped
           (join_lines ["---"; "name: Foo"; "description: Bar"; "---"])
           "---" ["name: Foo"; "description: Bar"]);
    [by vm_compute | compute_done].
Defined.

Lemma entry_replaced_wholesale_witness :
  exists final,
    settings_after
      (World (Parsed (JObj (<["agents" := JObj (<["a" := agent_entry "Old" "Stale" "Gone"]> ∅)]> ∅)))
             (Listing [("a.md", TextFile (doc "Alpha" "First" "Do this."))]))
    = Parsed final /\
    agents_of final !! agent_id_of "a.md"
    = Some (JObj (<["name" := JStr (strip "Alpha")]>
                 (<["description" := JStr (strip "First")]>
                 (<["systemPrompt" := JStr (strip "Do this.")]> ∅)))).
Proof.
  apply (entry_replaced_wholesale
           (World (Parsed (JObj (<["agents" := JObj (<["a" := agent_entry "Old" "Stale" "Gone"]> ∅)]> ∅)))
                  (Listing [("a.md", TextFile (doc "Alpha" "First" "Do this."))]))
           (JObj (<["agents" := JObj (<["a" := agent_entry "Old" "Stale" "Gone"]> ∅)]> ∅))
           [] "a.md" (doc "Alpha" "First" "Do this.") []
           (agent_entry "Old" "Stale" "Gone")
           [join_lines ["name: Alpha"; "description: First"]; "Do this."]
           ["Alpha"] ["First"]);
    [reflexivity | reflexivity | reflexivity | by vm_compute | by vm_compute
    | by vm_compute | by vm_compute | constructor | by vm_compute].
Defined.

Lemma well_formed_document_entry_witness :
  exists final,
    settings_after
      (World (Parsed (JObj demo_top))
             (Listing [("foo.md", TextFile (doc "Foo" "Bar" "Hello world"))]))
    = Parsed final /\
    agents_of final !! agent_id_of "foo.md"
    = Some (JObj (<["name" := JStr "Foo"]>
                 (<["description" := JStr "Bar"]>
                 (<["systemPrompt" := JStr "Hello world"]> ∅)))).
Proof.
  apply (well_formed_document_entry
           (World (Parsed (JObj demo_top))
                  (Listing [("foo.md", TextFile (doc "Foo" "Bar" "Hello world"))]))
           (JObj demo_top) [] "foo.md" []
           ["name: Foo"; "description: Bar"] "Hello world");
    [reflexivity | reflexivity | reflexivity | repeat constructor
    | compute_done | reflexivity | reflexivity | reflexivity | constructor
    | by vm_compute].
Defined.

End Properties.

(** * Further facts *)

Module MoreFacts.
Import Py Sre Direct Agents More PyFacts DirectFacts SreFacts AgentsFacts.

(** ** The frontmatter pattern *)

Lemma lazy_until_first sep s g1 g2 a r :
  lazy_until sep s = Some (g1, g2) ->
  s = a +:+ sep +:+ r ->
  String.length g1 <= String.length a.
Proof.
  revert g1 a. induction s as [|c s IH]; intros g1 a; simpl.
  - destruct (removeprefix sep "") as [rest|]; [|done].
    intros [= <- <-] _. simpl. lia.
  - destruct (removeprefix sep (String c s)) as [rest|] eqn:Hp.
    { intros [= <- <-] _. simpl. lia. }
    destruct (lazy_until sep s) as [[h t]|] eqn:Hl; [|done].
    intros [= <- <-] Hs. destruct a as [|d a].
    + simpl in Hs. rewrite Hs, removeprefix_app in Hp. done.
    + simpl in Hs. injection Hs as -> Hs. simpl.
      specialize (IH h a eq_refl Hs). lia.
Qed.

Lemma lazy_until_complete sep a r :
  is_Some (lazy_until sep (a +:+ sep +:+ r)).
Proof.
  induction a as [|c a IH]; simpl.
  - destruct (sep +:+ r) as [|d s] eqn:Hs; simpl.
    + destruct sep; [by eexists | done].
    + rewrite <- Hs, removeprefix_app. by eexists.
  - destruct (removeprefix sep _) as [rest|]; [by eexists|].
    destruct IH as [[g1 g2] ->]. by eexists.
Qed.

Lemma frontmatter_split_first content g1 g2 a r :
  frontmatter_split content = Some (g1, g2) ->
  content = "---" +:+ nl +:+ a +:+ nl +:+ "---" +:+ nl +:+ r ->
  String.length g1 <= String.length a.
Proof.
  unfold frontmatter_split. intros Hm ->.
  change ("---" +:+ nl +:+ a +:+ nl +:+ "---" +:+ nl +:+ r)
    with (("---" +:+ nl) +:+ (a +:+ (nl +:+ "---" +:+ nl) +:+ r)) in Hm.
  rewrite removeprefix_app in Hm.
  by apply (lazy_until_first _ _ _ _ a r Hm).
Qed.

Lemma frontmatter_split_complete a r :
  is_Some (frontmatter_split
             ("---" +:+ nl +:+ a +:+ nl +:+ "---" +:+ nl +:+ r)).
Proof.
  unfold frontmatter_split.
  change ("---" +:+ nl +:+ a +:+ nl +:+ "---" +:+ nl +:+ r)
    with (("---" +:+ nl) +:+ (a +:+ (nl +:+ "---" +:+ nl) +:+ r)).
  rewrite removeprefix_app. apply lazy_until_complete.
Qed.

(** ** The field patterns *)

Lemma line_end_gives_rest r : line_end r = true -> eol_rest r.
Proof.
  destruct r as [|c r]; [by left|]. simpl.
  intros ->%is_lf_true. right. by exists r.
Qed.

(** What the greedy dot took: a line, up to its end. *)
Lemma dot_plus_eol_sound s g :
  dot_plus_eol s = Some g ->
  g <> "" /\ lf_free g = true /\ exists r, s = g +:+ r /\ eol_rest r.
Proof.
  revert g. induction s as [|c s IH]; intros g; [done|]. simpl.
  destruct (is_lf c) eqn:Hc; [done|].
  destruct (dot_plus_eol s) as [g'|].
  - intros [= <-]. destruct (IH g' eq_refl) as (_ & Hlf & r & -> & Hr).
    split; [done|]. split; [simpl; by rewrite Hc, Hlf|]. by exists r.
  - destruct (line_end s) eqn:He; [|done]. intros [= <-].
    split; [done|]. split; [simpl; by rewrite Hc|].
    exists s. split; [done|]. by apply line_end_gives_rest.
Qed.

(** What the value is: white space, then a line up to its end. *)
Lemma value_match_sound s g :
  value_match s = Some g ->
  exists w r, s = w +:+ g +:+ r /\ all_space w = true /\
              g <> "" /\ lf_free g = true /\ eol_rest r.
Proof.
  revert g. induction s as [|c s IH]; intros g; [done|].
  assert (Hdot : dot_plus_eol (String c s) = Some g ->
                 exists w r, String c s = w +:+ g +:+ r /\ all_space w = true /\
                             g <> "" /\ lf_free g = true /\ eol_rest r).
  { intros (Hne & Hlf & r & Hs & Hr)%dot_plus_eol_sound. by exists "", r. }
  cbn [value_match]. destruct (isspace c) eqn:Hc; [|done].
  destruct (value_match s) as [g'|]; [|done].
  intros [= <-]. destruct (IH g' eq_refl) as (w & r & -> & Hw & Hrest).
  exists (String c w), r. split; [done|]. split; [|done].
  simpl. by rewrite Hc, Hw.
Qed.

Lemma search_from_sound field bol s g :
  search_from field bol s = Some g ->
  exists a w r,
    s = a +:+ (field +:+ ":") +:+ w +:+ g +:+ r /\
    ((a = "" /\ bol = true) \/ exists a', a = a' +:+ nl) /\
    all_space w = true /\ g <> "" /\ lf_free g = true /\ eol_rest r.
Proof.
  revert bol. induction s as [|c s IH]; intros bol.
  - cbn [search_from]. destruct bol; [|done].
    unfold field_here. destruct (removeprefix _ "") as [t|] eqn:Hp; [|done].
    destruct (value_match t) as [g'|] eqn:Hv; [|done]. intros [= ->].
    apply removeprefix_Some in Hp.
    destruct (value_match_sound _ _ Hv) as (w & r & -> & Hrest).
    exists "", w, r. split; [done|]. split; [by left | done].
  - cbn [search_from].
    destruct (if bol then field_here field (String c s) else None)
      as [g'|] eqn:Hhere.
    + intros [= ->]. destruct bol; [|done]. unfold field_here in Hhere.
      destruct (removeprefix _ (String c s)) as [t|] eqn:Hp; [|done].
      apply removeprefix_Some in Hp.
      destruct (value_match_sound _ _ Hhere) as (w & r & -> & Hrest).
      exists "", w, r. split; [done|]. split; [by left | done].
    + intros (a & w & r & -> & Hstart & Hrest)%IH.
      exists (String c a), w, r. split; [done|]. split; [|done].
      right. destruct Hstart as [[-> Hc] | [a' ->]].
      * apply is_lf_true in Hc as ->. by exists "".
      * by exists (String c a').
Qed.

(** The lines before the first one that starts with the field are
    passed over. *)
Lemma field_value_skip field pre l post :
  lf_free field = true ->
  Forall (fun l => lf_free l = true) pre ->
  Forall (fun l => startswith l (field +:+ ":") = false) pre ->
  field_value field (join_lines (pre ++ l :: post))
  = search_from field true (join_lines (l :: post)).
Proof.
  intros Hf. unfold field_value. induction pre as [|p pre IH]; [done|].
  intros [Hp Hall]%Forall_cons [Hm Hmiss]%Forall_cons.
  rewrite <- app_comm_cons.
  destruct (pre ++ l :: post) as [|l2 ls] eqn:Hls; [by destruct pre|].
  rewrite join_lines_cons, search_bol_miss.
  - rewrite search_over_line by done. by apply IH.
  - apply field_here_line_miss; [done..|right; by eexists].
Qed.

(** White space alone after the colon, up to the end of the text: the
    pattern gives back the last of it to the dot. *)
Lemma value_match_blank w :
  w <> "" -> all_space w = true -> lf_free w = true ->
  exists c, value_match w = Some (String c "") /\ isspace c = true.
Proof.
  induction w as [|c w IH]; [done|]. intros _ Hw Hlf.
  simpl in Hw, Hlf. apply andb_true_iff in Hw as [Hc Hw].
  apply andb_true_iff in Hlf as [Hnl Hlf]. apply negb_true_iff in Hnl.
  cbn [value_match]. rewrite Hc. destruct w as [|d w].
  - exists c. simpl. by rewrite Hnl.
  - destruct (IH ltac:(done) Hw Hlf) as (e & -> & He). by exists e.
Qed.

Lemma strip_space c : isspace c = true -> strip (String c "") = "".
Proof. intros Hc. unfold strip. simpl. by rewrite Hc. Qed.

(** ** The identifier and the stripped texts *)

Lemma occurs_cons p c s : occurs p s -> occurs p (String c s).
Proof. intros (a & b & ->). by exists (String c a), b. Qed.

(** No [.md] starts at the head of a text that is followed by [.md],
    unless one starts at the head of the text itself. *)
Lemma startswith_md_app base :
  ~ occurs ".md" base -> base <> "" ->
  startswith (base +:+ ".md") ".md" = false.
Proof.
  intros Hno Hne. unfold startswith.
  destruct (removeprefix ".md" (base +:+ ".md")) as [r|] eqn:Hp; [|done].
  apply removeprefix_Some in Hp. exfalso.
  destruct base as [|c1 [|c2 [|c3 base]]]; try done.
  apply Hno. exists "", base. simpl in *. by injection Hp as -> -> -> _.
Qed.

Lemma replace_md_stem base :
  ~ occurs ".md" base -> replace (base +:+ ".md") ".md" "" = base.
Proof.
  unfold replace. induction base as [|c base IH]; intros Hno; [done|].
  change (String c base +:+ ".md") with (String c (base +:+ ".md")).
  cbn [replace_from]. change (String c (base +:+ ".md"))
    with (String c base +:+ ".md").
  rewrite startswith_md_app by done.
  rewrite IH; [done|]. intros Hocc. by apply Hno, occurs_cons.
Qed.

Lemma head_space_lstrip s : head_space (lstrip s) = false.
Proof.
  induction s as [|c s IH]; [done|]. simpl.
  destruct (isspace c) eqn:Hc; [done|]. simpl. by rewrite Hc.
Qed.

Lemma head_space_rstrip s : head_space s = false -> head_space (rstrip s) = false.
Proof.
  destruct s as [|c s]; [done|]. simpl. intros Hc.
  destruct (rstrip s); simpl; by rewrite ?Hc.
Qed.

Lemma last_space_rstrip s : last_space (rstrip s) = false.
Proof.
  induction s as [|c s IH]; [done|]. cbn [rstrip].
  destruct (rstrip s) as [|d r] eqn:Hr.
  - destruct (isspace c) eqn:Hc; [done|]. simpl. by rewrite Hc.
  - done.
Qed.

Lemma lf_free_lstrip s : lf_free s = true -> lf_free (lstrip s) = true.
Proof.
  induction s as [|c s IH]; [done|]. cbn [lstrip].
  destruct (isspace c); [|done]. simpl.
  intros [_ Hs]%andb_true_iff. by apply IH.
Qed.

Lemma lf_free_rstrip s : lf_free s = true -> lf_free (rstrip s) = true.
Proof.
  induction s as [|c s IH]; [done|]. simpl.
  intros [Hc Hs]%andb_true_iff. specialize (IH Hs).
  destruct (rstrip s) as [|d r].
  - destruct (isspace c); [done|]. simpl. by rewrite Hc.
  - simpl in *. by rewrite Hc, IH.
Qed.

(** A stripped text neither starts nor ends with white space. *)
Lemma strip_edges s :
  head_space (strip s) = false /\ last_space (strip s) = false.
Proof.
  unfold strip. split.
  - apply head_space_rstrip, head_space_lstrip.
  - apply last_space_rstrip.
Qed.

Lemma lf_free_strip s : lf_free s = true -> lf_free (strip s) = true.
Proof. intros Hs. by apply lf_free_rstrip, lf_free_lstrip. Qed.

Lemma field_value_lf_free field text g :
  field_value field text = Some g -> lf_free g = true.
Proof.
  unfold field_value.
  by intros (a & w & r & _ & _ & _ & _ & Hlf & _)%search_from_sound.
Qed.

(** ** The loop and the run *)

Lemma action_of_pass filename d :
  action_of filename d = Pass <-> endswith filename ".md" = false.
Proof.
  unfold action_of. destruct (endswith filename ".md"); [|done].
  split; [|done]. destruct d as [content|e]; [|done].
  by destruct (parse_agent content) as [[[??]?]|].
Qed.

Lemma md_entries_cons filename d rest :
  md_entries ((filename, d) :: rest) =
  if endswith filename ".md" then (filename, d) :: md_entries rest
  else md_entries rest.
Proof. done. Qed.

Lemma bind_ret_l {A B} (a : A) (k : A -> M B) : bind (ret a) k = k a.
Proof. unfold bind, ret. by destruct (k a). Qed.

(** The entries that are no documents do not count. *)
Lemma process_all_md_entries entries settings :
  process_all settings entries = process_all settings (md_entries entries).
Proof.
  revert settings. induction entries as [|[filename d] rest IH];
    intros settings; [done|].
  rewrite md_entries_cons, process_all_cons.
  destruct (endswith filename ".md") eqn:Hmd.
  - rewrite process_all_cons. unfold bind.
    destruct (process_file settings filename d) as [t [e|s]]; [done|].
    by rewrite IH.
  - unfold process_file. rewrite Hmd. by rewrite bind_ret_l.
Qed.

Lemma opened_app t1 t2 : opened (t1 ++ t2) = opened t1 ++ opened t2.
Proof. unfold opened. apply omap_app. Qed.

Lemma opened_events_of filename d :
  opened (events_of filename d) = if endswith filename ".md" then [filename] else [].
Proof.
  unfold events_of, action_of. destruct (endswith filename ".md"); [|done].
  destruct d as [content|e]; [|done].
  by destruct (parse_agent content) as [[[??]?]|].
Qed.

Lemma opened_loop_events entries :
  opened (loop_events entries) = (md_entries entries).*1.
Proof.
  induction entries as [|[filename d] rest IH]; [done|].
  rewrite loop_events_cons, opened_app, IH, md_entries_cons, opened_events_of.
  by destruct (endswith filename ".md").
Qed.

Lemma opened_process_all entries settings :
  opened (process_all settings entries).1 `prefix_of` (md_entries entries).*1.
Proof.
  revert settings. induction entries as [|[filename d] rest IH];
    intros settings; [done|].
  rewrite process_all_cons, process_file_action, md_entries_cons.
  pose proof (action_of_pass filename d) as Hpass. unfold bind.
  destruct (action_of filename d) as [| |e|agent_id entry] eqn:Ha.
  - rewrite (proj1 Hpass eq_refl). specialize (IH settings).
    by destruct (process_all settings rest) as [t [e|s]].
  - destruct (endswith filename ".md"); [|by destruct Hpass as [_ Hp]; specialize (Hp eq_refl)].
    specialize (IH settings).
    destruct (process_all settings rest) as [t [e|s]];
      by apply (prefix_cons filename).
  - destruct (endswith filename ".md"); [|by destruct Hpass as [_ Hp]; specialize (Hp eq_refl)].
    apply (prefix_cons filename), prefix_nil.
  - destruct (endswith filename ".md"); [|by destruct Hpass as [_ Hp]; specialize (Hp eq_refl)].
    destruct (merge_agent settings agent_id entry) as [e|s1].
    { apply (prefix_cons filename), prefix_nil. }
    specialize (IH s1).
    destruct (process_all s1 rest) as [t [e|s]];
      by apply (prefix_cons filename).
Qed.

Lemma none_parses_puts entries : none_parses entries -> puts entries = [].
Proof.
  induction entries as [|[filename d] rest IH]; [done|].
  intros [Hd Hrest]%Forall_cons. rewrite puts_cons, (IH Hrest).
  unfold action_of. destruct (endswith filename ".md"); [|done].
  destruct d as [content|e]; [|done]. by rewrite (Hd content).
Qed.

Lemma all_readable_no_die entries : all_readable entries -> no_die entries.
Proof.
  intros Hall. eapply Forall_impl; [exact Hall|].
  intros [filename d] Hd. unfold dies, action_of.
  destruct (endswith filename ".md"); [|done].
  destruct (Hd eq_refl) as [content ->].
  by destruct (parse_agent content) as [[[??]?]|].
Qed.

Lemma unreadable_md_dies entries : unreadable_md entries -> ~ no_die entries.
Proof.
  intros (filename & e & Hin & Hmd) Hnd.
  apply (proj1 (Forall_forall _ _) Hnd) in Hin.
  unfold dies, action_of in Hin. by rewrite Hmd in Hin.
Qed.

(** What a run writes: the store at the end of the loop, once, when
    the loop ends; nothing otherwise. *)
Lemma dumps_run w settings entries :
  settings_file w = Parsed settings ->
  agents_dir w = Listing entries ->
  dumps (run w).1
  = match (process_all settings entries).2 with
    | inr settings' => [settings']
    | inl _ => []
    end.
Proof.
  intros Hs Hd. rewrite (run_listing _ _ _ Hs Hd).
  pose proof (dumps_process_all entries settings) as Hnone.
  destruct (process_all settings entries) as [t [e|s']]; [done|].
  cbn [fst snd] in *. unfold dumps in *.
  destruct (agents_count s'); cbn [fst]; by rewrite omap_app, Hnone.
Qed.

Lemma dumps_run_no_loop w :
  (forall settings entries,
     settings_file w = Parsed settings -> agents_dir w = Listing entries ->
     False) ->
  (run w).1 = [] /\ exists e, (run w).2 = inl e.
Proof.
  intros Hno. unfold run.
  destruct (settings_file w) as [| |settings]; [by split; [|eexists]..|].
  destruct (agents_dir w) as [|entries]; [by split; [|eexists]|].
  by destruct (Hno settings entries).
Qed.



(** ** The [agents] mapping after the loop *)

Lemma agents_of_loop_end settings entries t final :
  process_all settings entries = (t, inr final) ->
  agents_of final = apply_puts (agents_of settings) (puts entries).
Proof.
  intros Hrun. destruct (process_all_inr _ _ _ _ Hrun) as [_ Hok].
  apply process_all_inr_eq in Hrun as [_ ->].
  destruct Hok as [-> | Hok]; [done|]. by apply agents_of_fold_put.
Qed.

Lemma dom_apply_puts m ops :
  dom (apply_puts m ops) = dom m ∪ list_to_set ops.*1.
Proof.
  revert m. induction ops as [|[k v] ops IH]; intros m; simpl.
  - by rewrite (right_id_L ∅ (∪)).
  - rewrite IH, dom_insert_L, (comm_L (∪) {[k]} (dom m)).
    by rewrite (assoc_L (∪)).
Qed.

Lemma size_apply_puts m ops :
  size m <= size (apply_puts m ops) <= size m + length ops.
Proof.
  revert m. induction ops as [|[k v] ops IH]; intros m; simpl; [lia|].
  specialize (IH (<[k := v]> m)).
  destruct (m !! k) as [x|] eqn:Hk.
  - rewrite (map_size_insert_Some k v m) in IH by done. lia.
  - rewrite (map_size_insert_None k v m) in IH by done. lia.
Qed.

(** Merges under different identifiers can be made in any order. *)
Lemma apply_puts_perm ops ops' m :
  ops ≡ₚ ops' -> NoDup ops.*1 -> apply_puts m ops = apply_puts m ops'.
Proof.
  intros Hperm. revert m.
  induction Hperm as [|[k v] l l' _ IH|[k1 v1] [k2 v2] l|l l' l'' H1 IH1 H2 IH2];
    intros m Hnd.
  - done.
  - simpl. apply IH. by apply NoDup_cons in Hnd as [_ ?].
  - simpl. rewrite insert_insert_ne; [done|].
    simpl in Hnd. apply NoDup_cons in Hnd as [Hnot _].
    intros ->. apply Hnot. by left.
  - rewrite IH1 by done. apply IH2. by rewrite <- H1.
Qed.

Lemma fold_put_perm top ops ops' :
  ops ≡ₚ ops' -> NoDup ops.*1 ->
  fold_put (JObj top) ops = fold_put (JObj top) ops'.
Proof.
  intros Hperm Hnd. destruct ops as [|op ops].
  - by apply Permutation_nil_l in Hperm as ->.
  - destruct ops' as [|op' ops'];
      [by apply Permutation_nil_r in Hperm|].
    rewrite !fold_put_obj by done. by rewrite (apply_puts_perm _ _ _ Hperm).
Qed.

Lemma puts_perm entries entries' : entries ≡ₚ entries' -> puts entries ≡ₚ puts entries'.
Proof. intros Hperm. unfold puts. by rewrite Hperm. Qed.

Lemma no_die_perm entries entries' :
  entries ≡ₚ entries' -> no_die entries -> no_die entries'.
Proof. intros Hperm. unfold no_die. by rewrite Hperm. Qed.

Lemma dot_free_no_md base : dot_free base = true -> ~ occurs ".md" base.
Proof.
  intros Hfree (a & b & ->). induction a as [|c a IH]; simpl in Hfree.
  - done.
  - apply andb_true_iff in Hfree as [_ Hfree]. by apply IH.
Qed.

End MoreFacts.

(** * Further properties of the script *)

Module Further.
Import Py Sre Direct Agents More PyFacts DirectFacts SreFacts AgentsFacts MoreFacts.

(** X1.  A match of the frontmatter pattern has two groups, and the
    document is the opening line, group 1, the closing line and
    group 2, with nothing lost. *)
Theorem frontmatter_match_decomposes content frontmatter_match :
  re_match frontmatter_re content DOTALL = Some frontmatter_match ->
  frontmatter_match = [group frontmatter_match 1; group frontmatter_match 2] /\
  content = "---" +:+ nl +:+ group frontmatter_match 1 +:+ nl +:+ "---" +:+ nl
            +:+ group frontmatter_match 2.
Proof.
  rewrite frontmatter_re_match.
  destruct (frontmatter_split content) as [[h r]|] eqn:Hm; [|done].
  intros [= <-]. split; [done|]. by apply frontmatter_split_Some.
Qed.

(** X2.  The header ends at the first closing line: however the
    document is cut into an opening line, a text, a closing line and a
    rest, group 1 is not longer than that text.  Lines [---] further
    down belong to the body. *)
Theorem header_ends_at_first_closing content frontmatter_match a r :
  re_match frontmatter_re content DOTALL = Some frontmatter_match ->
  content = "---" +:+ nl +:+ a +:+ nl +:+ "---" +:+ nl +:+ r ->
  String.length (group frontmatter_match 1) <= String.length a.
Proof.
  intros Hm Hc. apply frontmatter_re_match_Some in Hm.
  by apply (frontmatter_split_first _ _ _ _ _ Hm Hc).
Qed.

(** X3.  The frontmatter pattern matches exactly the documents that
    are an opening line, some text, a closing line with its line feed,
    and a rest. *)
Theorem frontmatter_match_iff content :
  is_Some (re_match frontmatter_re content DOTALL) <->
  exists a r, content = "---" +:+ nl +:+ a +:+ nl +:+ "---" +:+ nl +:+ r.
Proof.
  split.
  - intros [fm Hm]. apply frontmatter_re_match_Some in Hm.
    apply frontmatter_split_Some in Hm. by eexists _, _.
  - intros (a & r & ->). rewrite frontmatter_re_match.
    destruct (frontmatter_split_complete a r) as [[g1 g2] ->]. by eexists.
Qed.

(** X4.  A document whose first line is not [---] is opened and
    skipped. *)
Theorem document_without_opening_line_skipped content :
  head (split_lines content) <> Some "---" ->
  re_match frontmatter_re content DOTALL = None /\
  (forall settings filename,
     endswith filename ".md" = true ->
     process_file settings filename (TextFile content)
     = ([OpenDoc filename], inr settings)).
Proof.
  intros Hhead.
  assert (Hm : frontmatter_split content = None).
  { destruct (frontmatter_split content) as [[h r]|] eqn:Hm; [|done].
    apply frontmatter_split_lines in Hm. by rewrite Hm in Hhead. }
  split; [by apply frontmatter_re_match_None|]. intros settings filename Hmd.
  apply process_file_skip; [done|]. by rewrite parse_agent_direct, Hm.
Qed.

(** X5.  When the first line of the header that starts with the field
    and its colon goes on, after white space, with a text that does not
    start with white space, the search finds that text, up to the end
    of the line, as group 1. *)
Theorem field_found_on_its_line field pre l post w v :
  lf_free field = true ->
  Forall (fun l => lf_free l = true) (pre ++ l :: post) ->
  Forall (fun l => startswith l (field +:+ ":") = false) pre ->
  l = field +:+ ":" +:+ w +:+ v ->
  all_space w = true ->
  starts_black v ->
  re_search (field_re field) (join_lines (pre ++ l :: post)) MULTILINE
  = Some [v].
Proof.
  intros Hf Hall Hpre Hl Hw Hv. rewrite field_re_search.
  by rewrite (field_value_hit field pre l post w v).
Qed.

(** X6.  A match of a field pattern has one group; the match starts
    where a line starts, with the field and its colon, goes on with
    white space and ends with the group, which is not empty, holds no
    line feed and runs to the end of its line. *)
Theorem field_match_shape field text field_match :
  re_search (field_re field) text MULTILINE = Some field_match ->
  field_match = [group field_match 1] /\
  exists a w r,
    text = a +:+ (field +:+ ":") +:+ w +:+ group field_match 1 +:+ r /\
    line_start a /\
    all_space w = true /\
    group field_match 1 <> "" /\
    lf_free (group field_match 1) = true /\
    eol_rest r.
Proof.
  rewrite field_re_search. unfold field_value.
  destruct (search_from field true text) as [g|] eqn:Hs; [|done].
  intros [= <-]. split; [done|].
  destruct (search_from_sound _ _ _ _ Hs) as (a & w & r & -> & Hstart & Hrest).
  exists a, w, r. split; [done|]. split; [|done].
  destruct Hstart as [[-> _] | Hnl]; [by left | by right].
Qed.

(** X7.  A document whose header has no line that starts with
    [description:] is opened and skipped, whatever its name. *)
Theorem document_without_description_skipped content frontmatter_match :
  re_match frontmatter_re content DOTALL = Some frontmatter_match ->
  Forall (fun l => startswith l "description:" = false)
         (split_lines (group frontmatter_match 1)) ->
  re_search desc_re (group frontmatter_match 1) MULTILINE = None /\
  (forall settings filename,
     endswith filename ".md" = true ->
     process_file settings filename (TextFile content)
     = ([OpenDoc filename], inr settings)).
Proof.
  intros Hm Hall.
  assert (Hd : field_value "description" (group frontmatter_match 1) = None)
    by (by apply field_value_needs_line).
  split; [unfold desc_re; by rewrite field_re_search, Hd|].
  intros settings filename Hmd. apply process_file_skip; [done|].
  rewrite parse_agent_direct, (frontmatter_re_match_Some _ _ Hm), Hd.
  by destruct (field_value "name" _).
Qed.

(** X8.  When the first line that starts with the field is the last
    line of the header and holds only white space after the colon, the
    pattern still matches, with one white-space character as group 1:
    the stripped value is the empty text. *)
Theorem blank_last_field_gives_empty_value field pre w :
  lf_free field = true ->
  Forall (fun l => lf_free l = true) pre ->
  Forall (fun l => startswith l (field +:+ ":") = false) pre ->
  w <> "" -> all_space w = true -> lf_free w = true ->
  exists field_match,
    re_search (field_re field) (join_lines (pre ++ [field +:+ ":" +:+ w]))
              MULTILINE
    = Some field_match /\
    strip (group field_match 1) = "".
Proof.
  intros Hf Hlf Hmiss Hne Hw Hl.
  destruct (value_match_blank w Hne Hw Hl) as (c & Hv & Hc).
  exists [String c ""]. split; [|by apply strip_space].
  rewrite field_re_search, field_value_skip by done.
  cbn [join_lines]. unfold field_here.
  assert (Hhere : field_here field (field +:+ ":" +:+ w) = Some (String c "")).
  { unfold field_here.
    replace (field +:+ ":" +:+ w) with ((field +:+ ":") +:+ w)
      by (by rewrite sapp_assoc).
    by rewrite removeprefix_app. }
  destruct (field +:+ ":" +:+ w); simpl; by rewrite Hhere.
Qed.

(** X9.  For a file name that is a stem followed by [.md], where the
    stem holds no [.md], the identifier is the stem. *)
Theorem identifier_is_stem base :
  ~ occurs ".md" base ->
  endswith (base +:+ ".md") ".md" = true /\
  agent_id_of (base +:+ ".md") = base.
Proof.
  intros Hno. split; [|by apply replace_md_stem].
  clear Hno. induction base as [|c base IH]; [done|].
  change (String c base +:+ ".md") with (String c (base +:+ ".md")).
  cbn [endswith]. rewrite IH. by destruct (String.eqb _ _).
Qed.

(** X10.  The three texts of an entry that the script builds neither
    start nor end with white space, and the name and the description
    hold no line feed. *)
Theorem entry_texts_are_stripped content name description body :
  parse_agent content = Some (name, description, body) ->
  (head_space name = false /\ last_space name = false /\ lf_free name = true) /\
  (head_space description = false /\ last_space description = false /\
   lf_free description = true) /\
  (head_space body = false /\ last_space body = false).
Proof.
  rewrite parse_agent_direct.
  destruct (frontmatter_split content) as [[header rest]|]; [|done].
  destruct (field_value "name" header) as [n|] eqn:Hn; [|done].
  destruct (field_value "description" header) as [d|] eqn:Hd; [|done].
  intros [= <- <- <-].
  apply field_value_lf_free in Hn. apply field_value_lf_free in Hd.
  repeat split; try apply strip_edges; by apply lf_free_strip.
Qed.

(** X11.  After a merge that succeeds the store holds the entry under
    the identifier; the entries under the other identifiers and the
    values under the other top-level keys are what they were. *)
Theorem merge_then_lookup settings agent_id entry settings' :
  merge_agent settings agent_id entry = inr settings' ->
  agents_of settings' !! agent_id = Some entry /\
  (forall other, other <> agent_id ->
     agents_of settings' !! other = agents_of settings !! other) /\
  exists top top',
    settings = JObj top /\ settings' = JObj top' /\
    forall k, k <> "agents" -> top' !! k = top !! k.
Proof.
  intros [Hok ->]%merge_agent_inr.
  rewrite agents_of_put by done. split; [by rewrite lookup_insert_eq|].
  split; [intros other Hne; by rewrite lookup_insert_ne|].
  destruct Hok as (top & -> & _).
  destruct (put_agent_frame top agent_id entry) as (top' & Heq & Hframe).
  by exists top, top'.
Qed.

(** X12.  The merge raises exactly when the store is no [dict] or
    holds under ['agents'] a value that is no [dict], and what it
    raises is [TypeError]. *)
Theorem merge_fails_on_ill_typed_store settings agent_id entry :
  (store_ok settings <->
   exists settings', merge_agent settings agent_id entry = inr settings') /\
  (~ store_ok settings <->
   merge_agent settings agent_id entry = inl TypeError).
Proof.
  assert (Hinl : forall e, merge_agent settings agent_id entry = inl e ->
                           e = TypeError).
  { intros e. destruct settings as [| | | | | |top]; simpl;
      try (by intros [= <-]).
    destruct (top !! "agents") as [x|] eqn:Hag.
    - rewrite Hag. destruct x; by intros [= <-].
    - by rewrite lookup_insert_eq. }
  split; split.
  - intros Hok. eexists. by apply merge_agent_ok.
  - intros [s' Hm]. by apply merge_agent_inr in Hm as [? _].
  - intros Hbad. destruct (merge_agent settings agent_id entry) as [e|s'] eqn:Hm.
    + by rewrite (Hinl e).
    + by apply merge_agent_inr in Hm as [? _].
  - intros Hm Hok. by rewrite merge_agent_ok in Hm.
Qed.

(** X13.  The entries of the directory whose name does not end with
    [.md] do not count: the run does and prints the same with them as
    without them, even when they cannot be read. *)
Theorem other_files_ignored w entries :
  agents_dir w = Listing entries ->
  run w = run (World (settings_file w) (Listing (md_entries entries))).
Proof.
  intros Hd. unfold run. rewrite Hd. cbn [settings_file agents_dir].
  destruct (settings_file w) as [| |settings]; [done..|].
  unfold load_settings, listdir. rewrite !bind_ret_l.
  by rewrite process_all_md_entries.
Qed.

(** X14.  A run opens documents in the order of the listing, each
    [.md] entry once and no other entry.  A run that ends has opened
    them all; a run that dies has opened the first ones. *)
Theorem opened_documents w settings entries :
  settings_file w = Parsed settings ->
  agents_dir w = Listing entries ->
  opened (run w).1 `prefix_of` (md_entries entries).*1 /\
  ((run w).2 = inr tt -> opened (run w).1 = (md_entries entries).*1).
Proof.
  intros Hs Hd. rewrite (run_listing _ _ _ Hs Hd).
  pose proof (opened_process_all entries settings) as Hpre.
  destruct (process_all settings entries) as [t [e|s']] eqn:Hrun.
  { by split. }
  apply process_all_inr_eq in Hrun as [-> ->]. cbn [fst] in Hpre.
  destruct (agents_count _) as [e|n]; cbn [fst snd];
    rewrite opened_app, app_nil_r; [by split|].
  split; [done|]. intros _. apply opened_loop_events.
Qed.

(** X15.  A run writes the settings file only when the loop has ended,
    and then once, with the store that the loop ended with; when the
    settings cannot be loaded, the directory cannot be listed or the
    loop dies, it writes nothing. *)
Theorem written_once_after_the_loop w :
  (forall settings entries t final,
     settings_file w = Parsed settings ->
     agents_dir w = Listing entries ->
     process_all settings entries = (t, inr final) ->
     dumps (run w).1 = [final]) /\
  (dumps (run w).1 <> [] ->
   exists settings entries t final,
     settings_file w = Parsed settings /\
     agents_dir w = Listing entries /\
     process_all settings entries = (t, inr final)).
Proof.
  split.
  - intros settings entries t final Hs Hd Hrun.
    by rewrite (dumps_run _ _ _ Hs Hd), Hrun.
  - intros Hwrote.
    destruct (settings_file w) as [| |settings] eqn:Hs;
      [destruct (dumps_run_no_loop w) as [Ht _];
         [intros ?? H; by rewrite Hs in H | by rewrite Ht in Hwrote]..|].
    destruct (agents_dir w) as [|entries] eqn:Hd;
      [destruct (dumps_run_no_loop w) as [Ht _];
         [intros ?? _ H; by rewrite Hd in H | by rewrite Ht in Hwrote]|].
    rewrite (dumps_run _ _ _ Hs Hd) in Hwrote.
    destruct (process_all settings entries) as [t [e|final]] eqn:Hrun; [done|].
    by exists settings, entries, t, final.
Qed.

(** X16.  When an [.md] entry of the directory cannot be read the run
    dies and writes nothing: the settings file is what it was, also
    for the documents merged before that entry. *)
Theorem unreadable_document_aborts w entries :
  agents_dir w = Listing entries ->
  unreadable_md entries ->
  (exists e, (run w).2 = inl e) /\
  dumps (run w).1 = [] /\
  settings_after w = settings_file w.
Proof.
  intros Hd Hbad.
  destruct (settings_file w) as [| |settings] eqn:Hs.
  - destruct (run_load_error w (or_introl Hs)) as [e He].
    split; [exists e; by rewrite He|]. split; [by rewrite He|].
    rewrite <- Hs. apply settings_after_load_error. by left.
  - destruct (run_load_error w (or_intror Hs)) as [e He].
    split; [exists e; by rewrite He|]. split; [by rewrite He|].
    rewrite <- Hs. apply settings_after_load_error. by right.
  - destruct (process_all settings entries) as [t [e|s']] eqn:Hrun.
    + split; [exists e; by rewrite (run_listing _ _ _ Hs Hd), Hrun|].
      split; [by rewrite (dumps_run _ _ _ Hs Hd), Hrun|].
      by apply (settings_after_died _ _ _ _ _ Hs Hd Hrun).
    + apply process_all_inr in Hrun as [Hnd _].
      by destruct (unreadable_md_dies entries Hbad).
Qed.

(** X17.  When the store is no [dict], or holds under ['agents'] a
    value that is no [dict], and some document of the directory has a
    header with both fields, the run dies and writes nothing. *)
Theorem ill_typed_store_aborts w settings entries :
  settings_file w = Parsed settings ->
  agents_dir w = Listing entries ->
  ~ store_ok settings ->
  puts entries <> [] ->
  (exists e, (run w).2 = inl e) /\
  dumps (run w).1 = [] /\
  settings_after w = Parsed settings.
Proof.
  intros Hs Hd Hbad Hputs.
  destruct (process_all settings entries) as [t [e|s']] eqn:Hrun.
  - split; [exists e; by rewrite (run_listing _ _ _ Hs Hd), Hrun|].
    split; [by rewrite (dumps_run _ _ _ Hs Hd), Hrun|].
    by apply (settings_after_died _ _ _ _ _ Hs Hd Hrun).
  - by apply process_all_inr in Hrun as [_ [? | ?]].
Qed.

(** X18.  When the store is no [dict] and no document is merged, the
    loop ends, the store is written back as it is, and only then the
    last line raises [AttributeError]: the summary is not printed. *)
Theorem non_dict_store_written_then_fails w settings entries :
  settings_file w = Parsed settings ->
  agents_dir w = Listing entries ->
  (forall top, settings <> JObj top) ->
  all_readable entries ->
  none_parses entries ->
  (run w).2 = inl AttributeError /\
  dumps (run w).1 = [settings] /\
  stdout (run w).1 = [].
Proof.
  intros Hs Hd Hbad Hread Hnone.
  pose proof (none_parses_puts _ Hnone) as Hputs.
  pose proof (process_all_ok entries settings (all_readable_no_die _ Hread)
                (or_introl Hputs)) as Hrun.
  rewrite Hputs in Hrun. cbn [fold_put foldl] in Hrun.
  rewrite (dumps_run _ _ _ Hs Hd), (run_listing _ _ _ Hs Hd), Hrun.
  assert (Hcount : agents_count settings = inl AttributeError).
  { destruct settings as [| | | | | |top]; try done. by destruct (Hbad top). }
  rewrite Hcount. cbn [fst snd]. split; [done|]. split; [done|].
  rewrite stdout_app, stdout_loop_events, Hputs. done.
Qed.

(** X19.  When no document of the directory has a header with both
    fields, the settings file after the run holds the value it held
    before: no ['agents'] key is made, whether the run ends or dies. *)
Theorem nothing_parses_nothing_changes w entries :
  agents_dir w = Listing entries ->
  none_parses entries ->
  settings_after w = settings_file w.
Proof.
  intros Hd Hnone. pose proof (none_parses_puts _ Hnone) as Hputs.
  destruct (settings_file w) as [| |settings] eqn:Hs.
  - rewrite <- Hs. apply settings_after_load_error. by left.
  - rewrite <- Hs. apply settings_after_load_error. by right.
  - destruct (process_all settings entries) as [t [e|s']] eqn:Hrun.
    + by apply (settings_after_died _ _ _ _ _ Hs Hd Hrun).
    + rewrite (settings_after_done _ _ _ _ _ Hs Hd Hrun).
      apply process_all_inr_eq in Hrun as [_ ->]. by rewrite Hputs.
Qed.

(** X20.  After a run that ends, the identifiers of the [agents]
    mapping are those it had before the run and those of the merged
    documents; nothing is removed. *)
Theorem agents_keys_after_run w settings entries :
  settings_file w = Parsed settings ->
  agents_dir w = Listing entries ->
  (run w).2 = inr tt ->
  exists final,
    settings_after w = Parsed final /\
    dom (agents_of final)
    = dom (agents_of settings) ∪ list_to_set (puts entries).*1.
Proof.
  intros Hs Hd Hdone.
  destruct (run_done_inv _ _ _ Hs Hd Hdone) as (t & final & Hrun).
  exists final. split; [by apply (settings_after_done _ _ _ _ _ Hs Hd Hrun)|].
  rewrite (agents_of_loop_end _ _ _ _ Hrun). apply dom_apply_puts.
Qed.

(** X21.  An identifier that no merged document has keeps its entry,
    or stays without one, whether the run ends or dies: entries that
    no file stands for are never touched. *)
Theorem unrelated_entries_untouched w settings entries k :
  settings_file w = Parsed settings ->
  agents_dir w = Listing entries ->
  k ∉ (puts entries).*1 ->
  exists final,
    settings_after w = Parsed final /\
    agents_of final !! k = agents_of settings !! k.
Proof.
  intros Hs Hd Hk.
  destruct (process_all settings entries) as [t [e|final]] eqn:Hrun.
  - exists settings. by rewrite (settings_after_died _ _ _ _ _ Hs Hd Hrun).
  - exists final. split; [by apply (settings_after_done _ _ _ _ _ Hs Hd Hrun)|].
    rewrite (agents_of_loop_end _ _ _ _ Hrun). by apply apply_puts_other.
Qed.

(** X22.  The count that a run prints, started from a store whose
    [agents] is absent or a mapping, is at least the number of entries
    there were and at most that number plus the number of merged
    documents. *)
Theorem summary_count_bounds w settings entries :
  settings_file w = Parsed settings ->
  agents_dir w = Listing entries ->
  store_ok settings ->
  (run w).2 = inr tt ->
  exists count,
    last (stdout (run w).1) = Some (SummaryLine count) /\
    size (agents_of settings) <= count
    <= size (agents_of settings) + length (puts entries).
Proof.
  intros Hs Hd Hok Hdone.
  destruct (run_done_inv _ _ _ Hs Hd Hdone) as (t & final & Hrun).
  rewrite (run_listing _ _ _ Hs Hd), Hrun.
  pose proof (agents_of_loop_end _ _ _ _ Hrun) as Hag.
  apply process_all_inr_eq in Hrun as [-> ->].
  rewrite agents_count_ok by (by apply fold_put_ok). cbn [fst].
  eexists. split.
  - rewrite stdout_app. apply last_snoc.
  - rewrite Hag. apply size_apply_puts.
Qed.

(** X23.  When the merged documents have different identifiers, the
    order in which the directory is listed does not matter for the
    settings file after the run. *)
Theorem listing_order_irrelevant settings entries entries' :
  entries ≡ₚ entries' ->
  NoDup (puts entries).*1 ->
  settings_after (World (Parsed settings) (Listing entries))
  = settings_after (World (Parsed settings) (Listing entries')).
Proof.
  intros Hperm Hnd.
  set (w := World (Parsed settings) (Listing entries)).
  set (w' := World (Parsed settings) (Listing entries')).
  pose proof (puts_perm _ _ Hperm) as Hputs.
  destruct (process_all settings entries) as [t [e|s1]] eqn:Hrun;
    destruct (process_all settings entries') as [t' [e'|s1']] eqn:Hrun'.
  - rewrite (settings_after_died w _ _ _ _ eq_refl eq_refl Hrun).
    by rewrite (settings_after_died w' _ _ _ _ eq_refl eq_refl Hrun').
  - destruct (process_all_inr _ _ _ _ Hrun') as [Hnd' Hok'].
    rewrite process_all_ok in Hrun; [done | |].
    + apply (no_die_perm entries' entries); [by symmetry | done].
    + destruct Hok' as [Hnil | ?]; [left | by right].
      rewrite Hnil in Hputs. by apply Permutation_nil_r in Hputs.
  - destruct (process_all_inr _ _ _ _ Hrun) as [Hnd1 Hok].
    rewrite process_all_ok in Hrun'; [done | |].
    + by apply (no_die_perm entries entries').
    + destruct Hok as [Hnil | ?]; [left | by right].
      rewrite Hnil in Hputs. by apply Permutation_nil_l in Hputs.
  - rewrite (settings_after_done w _ _ _ _ eq_refl eq_refl Hrun).
    rewrite (settings_after_done w' _ _ _ _ eq_refl eq_refl Hrun').
    destruct (process_all_inr _ _ _ _ Hrun) as [_ Hok].
    apply process_all_inr_eq in Hrun as [_ ->].
    apply process_all_inr_eq in Hrun' as [_ ->].
    destruct Hok as [Hnil | (top & -> & _)].
    + rewrite Hnil in *. by apply Permutation_nil_l in Hputs as ->.
    + f_equal. apply fold_put_perm; [done|].
      done.
Qed.

(** X24.  After a run that ends, a second run on what it left does
    and prints the same as the first: it ends too, with the same lines
    and the same count. *)
Theorem second_run_repeats_first w :
  (run w).2 = inr tt -> run (world_after w) = run w.
Proof.
  intros Hdone.
  destruct (settings_file w) as [| |settings] eqn:Hs;
    [by destruct (run_load_error w) as [e He];
       [auto | rewrite He in Hdone]..|].
  destruct (agents_dir w) as [|entries] eqn:Hd.
  { unfold run in Hdone. by rewrite Hs, Hd in Hdone. }
  destruct (run_done_inv _ _ _ Hs Hd Hdone) as (t & final & Hrun).
  pose proof (settings_after_done _ _ _ _ _ Hs Hd Hrun) as Hafter.
  assert (Hs2 : settings_file (world_after w) = Parsed final) by done.
  assert (Hd2 : agents_dir (world_after w) = Listing entries) by done.
  rewrite (run_listing _ _ _ Hs Hd), (run_listing _ _ _ Hs2 Hd2), Hrun.
  destruct (process_all_inr _ _ _ _ Hrun) as [Hnd Hok].
  apply process_all_inr_eq in Hrun as [-> ->].
  rewrite process_all_ok; [| done |].
  - destruct Hok as [-> | (top & -> & _)]; [done|].
    by rewrite fold_put_twice.
  - destruct Hok as [? | Hok]; [by left|]. right. by apply fold_put_ok.
Qed.


(** ** The further properties at work *)

Lemma demo_top_ok : store_ok (JObj demo_top).
Proof.
  exists demo_top. split; [reflexivity|]. right. eexists. by vm_compute.
Defined.

Lemma frontmatter_match_decomposes_witness :
  [join_lines ["name: Foo"; "description: Bar"]; "Hello world"]
  = [group [join_lines ["name: Foo"; "description: Bar"]; "Hello world"] 1;
     group [join_lines ["name: Foo"; "description: Bar"]; "Hello world"] 2] /\
  doc "Foo" "Bar" "Hello world"
  = "---" +:+ nl
    +:+ group [join_lines ["name: Foo"; "description: Bar"]; "Hello world"] 1
    +:+ nl +:+ "---" +:+ nl
    +:+ group [join_lines ["name: Foo"; "description: Bar"]; "Hello world"] 2.
Proof.
  apply (frontmatter_match_decomposes (doc "Foo" "Bar" "Hello world")).
  by vm_compute.
Defined.

Lemma header_ends_at_first_closing_witness :
  String.length (group ["name: Foo"; join_lines ["a"; "---"; "b"]] 1)
  <= String.length (join_lines ["name: Foo"; "---"; "a"]).
Proof.
  apply (header_ends_at_first_closing
           (join_lines ["---"; "name: Foo"; "---"; "a"; "---"; "b"])
           ["name: Foo"; join_lines ["a"; "---"; "b"]]
           (join_lines ["name: Foo"; "---"; "a"]) "b");
    by vm_compute.
Defined.

Lemma frontmatter_match_iff_witness :
  is_Some (re_match frontmatter_re (doc "Foo" "Bar" "Hello world") DOTALL) <->
  exists a r,
    doc "Foo" "Bar" "Hello world"
    = "---" +:+ nl +:+ a +:+ nl +:+ "---" +:+ nl +:+ r.
Proof. exact (frontmatter_match_iff (doc "Foo" "Bar" "Hello world")). Defined.

Lemma document_without_opening_line_skipped_witness :
  re_match frontmatter_re (join_lines [""; "---"; "name: Foo"; "---"; "x"]) DOTALL
  = None /\
  (forall settings filename,
     endswith filename ".md" = true ->
     process_file settings filename
       (TextFile (join_lines [""; "---"; "name: Foo"; "---"; "x"]))
     = ([OpenDoc filename], inr settings)).
Proof.
  apply (document_without_opening_line_skipped
           (join_lines [""; "---"; "name: Foo"; "---"; "x"])).
  by vm_compute.
Defined.

Lemma field_found_on_its_line_witness :
  re_search (field_re "name")
            (join_lines (["title: x"] ++ "name:  Foo " :: ["description: Bar"]))
            MULTILINE
  = Some ["Foo "].
Proof.
  apply (field_found_on_its_line "name" ["title: x"] "name:  Foo "
           ["description: Bar"] "  " "Foo ");
    [reflexivity | repeat constructor | repeat constructor | reflexivity
    | reflexivity | reflexivity].
Defined.

Lemma field_match_shape_witness :
  ["Foo"] = [group ["Foo"] 1] /\
  exists a w r,
    join_lines ["title: x"; "name: Foo"; "description: Bar"]
    = a +:+ ("name" +:+ ":") +:+ w +:+ group ["Foo"] 1 +:+ r /\
    line_start a /\ all_space w = true /\ group ["Foo"] 1 <> "" /\
    lf_free (group ["Foo"] 1) = true /\ eol_rest r.
Proof.
  apply (field_match_shape "name"
           (join_lines ["title: x"; "name: Foo"; "description: Bar"]) ["Foo"]).
  by vm_compute.
Defined.

Lemma document_without_description_skipped_witness :
  re_search desc_re (group ["name: Foo"; "x"] 1) MULTILINE = None /\
  (forall settings filename,
     endswith filename ".md" = true ->
     process_file settings filename
       (TextFile (join_lines ["---"; "name: Foo"; "---"; "x"]))
     = ([OpenDoc filename], inr settings)).
Proof.
  apply (document_without_description_skipped
           (join_lines ["---"; "name: Foo"; "---"; "x"]) ["name: Foo"; "x"]);
    [by vm_compute | repeat constructor].
Defined.

Lemma blank_last_field_gives_empty_value_witness :
  exists field_match,
    re_search (field_re "name")
              (join_lines (["description: Bar"] ++ ["name" +:+ ":" +:+ "  "]))
              MULTILINE
    = Some field_match /\
    strip (group field_match 1) = "".
Proof.
  apply (blank_last_field_gives_empty_value "name" ["description: Bar"] "  ");
    [reflexivity | repeat constructor | repeat constructor | discriminate
    | reflexivity | reflexivity].
Defined.

Lemma identifier_is_stem_witness :
  endswith ("code-reviewer" +:+ ".md") ".md" = true /\
  agent_id_of ("code-reviewer" +:+ ".md") = "code-reviewer".
Proof.
  apply (identifier_is_stem "code-reviewer").
  apply dot_free_no_md. reflexivity.
Defined.

Lemma entry_texts_are_stripped_witness :
  (head_space "Foo" = false /\ last_space "Foo" = false /\ lf_free "Foo" = true) /\
  (head_space "Bar" = false /\ last_space "Bar" = false /\ lf_free "Bar" = true) /\
  (head_space "Hello world" = false /\ last_space "Hello world" = false).
Proof.
  apply (entry_texts_are_stripped
           (join_lines ["---"; "name:   Foo  "; "description: Bar "; "---"; "";
                        "Hello world"; ""])
           "Foo" "Bar" "Hello world").
  by vm_compute.
Defined.

Lemma merge_then_lookup_witness :
  agents_of (put_agent (JObj demo_top) "a" (agent_entry "A" "B" "C")) !! "a"
  = Some (agent_entry "A" "B" "C") /\
  (forall other, other <> "a" ->
     agents_of (put_agent (JObj demo_top) "a" (agent_entry "A" "B" "C")) !! other
     = agents_of (JObj demo_top) !! other) /\
  exists top top',
    JObj demo_top = JObj top /\
    put_agent (JObj demo_top) "a" (agent_entry "A" "B" "C") = JObj top' /\
    forall k, k <> "agents" -> top' !! k = top !! k.
Proof.
  apply (merge_then_lookup (JObj demo_top) "a" (agent_entry "A" "B" "C")).
  by vm_compute.
Defined.

Lemma other_files_ignored_witness :
  run demo_world = run (World (settings_file demo_world)
                              (Listing (md_entries demo_dir))).
Proof. apply (other_files_ignored demo_world demo_dir). reflexivity. Defined.

Lemma opened_documents_witness :
  opened (run demo_world).1 `prefix_of` (md_entries demo_dir).*1 /\
  ((run demo_world).2 = inr tt ->
   opened (run demo_world).1 = (md_entries demo_dir).*1).
Proof.
  apply (opened_documents demo_world (JObj demo_top) demo_dir); reflexivity.
Defined.

Lemma unreadable_document_aborts_witness :
  (exists e,
     (run (World (Parsed (JObj demo_top))
                 (Listing [("a.md", TextFile (doc "Alpha" "First" "Do this."));
                           ("b.md", Unreadable OSError)]))).2 = inl e) /\
  dumps (run (World (Parsed (JObj demo_top))
                    (Listing [("a.md", TextFile (doc "Alpha" "First" "Do this."));
                              ("b.md", Unreadable OSError)]))).1 = [] /\
  settings_after (World (Parsed (JObj demo_top))
                        (Listing [("a.md", TextFile (doc "Alpha" "First" "Do this."));
                                  ("b.md", Unreadable OSError)]))
  = Parsed (JObj demo_top).
Proof.
  apply (unreadable_document_aborts
           (World (Parsed (JObj demo_top))
                  (Listing [("a.md", TextFile (doc "Alpha" "First" "Do this."));
                            ("b.md", Unreadable OSError)]))
           [("a.md", TextFile (doc "Alpha" "First" "Do this."));
            ("b.md", Unreadable OSError)]);
    [reflexivity|].
  exists "b.md", OSError. split; [right; left | reflexivity].
Defined.

Lemma ill_typed_store_aborts_witness :
  (exists e,
     (run (World (Parsed (JArr []))
                 (Listing [("a.md", TextFile (doc "Alpha" "First" "Do this."))]))).2
     = inl e) /\
  dumps (run (World (Parsed (JArr []))
                    (Listing [("a.md", TextFile (doc "Alpha" "First" "Do this."))]))).1
  = [] /\
  settings_after (World (Parsed (JArr []))
                        (Listing [("a.md", TextFile (doc "Alpha" "First" "Do this."))]))
  = Parsed (JArr []).
Proof.
  apply (ill_typed_store_aborts
           (World (Parsed (JArr []))
                  (Listing [("a.md", TextFile (doc "Alpha" "First" "Do this."))]))
           (JArr [])
           [("a.md", TextFile (doc "Alpha" "First" "Do this."))]);
    [reflexivity | reflexivity | | by vm_compute].
  intros (top & Heq & _). discriminate Heq.
Defined.

Lemma skipped_dir_readable :
  all_readable [("d.md", TextFile (join_lines ["---"; "name: Delta"]));
                ("notes.txt", Unreadable OSError)].
Proof.
  repeat constructor.
  - intros _. by eexists.
  - intros Hmd. vm_compute in Hmd. discriminate Hmd.
Defined.

Lemma skipped_dir_none_parses :
  none_parses [("d.md", TextFile (join_lines ["---"; "name: Delta"]));
               ("notes.txt", Unreadable OSError)].
Proof.
  repeat constructor.
  - intros content _ [= <-]. by vm_compute.
  - intros content Hmd. vm_compute in Hmd. discriminate Hmd.
Defined.

Lemma non_dict_store_written_then_fails_witness :
  (run (World (Parsed (JArr []))
              (Listing [("d.md", TextFile (join_lines ["---"; "name: Delta"]));
                        ("notes.txt", Unreadable OSError)]))).2
  = inl AttributeError /\
  dumps (run (World (Parsed (JArr []))
                    (Listing [("d.md", TextFile (join_lines ["---"; "name: Delta"]));
                              ("notes.txt", Unreadable OSError)]))).1
  = [JArr []] /\
  stdout (run (World (Parsed (JArr []))
                     (Listing [("d.md", TextFile (join_lines ["---"; "name: Delta"]));
                               ("notes.txt", Unreadable OSError)]))).1
  = [].
Proof.
  apply (non_dict_store_written_then_fails
           (World (Parsed (JArr []))
                  (Listing [("d.md", TextFile (join_lines ["---"; "name: Delta"]));
                            ("notes.txt", Unreadable OSError)]))
           (JArr [])
           [("d.md", TextFile (join_lines ["---"; "name: Delta"]));
            ("notes.txt", Unreadable OSError)]);
    [reflexivity | reflexivity | discriminate | exact skipped_dir_readable
    | exact skipped_dir_none_parses].
Defined.

Lemma nothing_parses_nothing_changes_witness :
  settings_after
    (World (Parsed (JObj demo_top))
           (Listing [("d.md", TextFile (join_lines ["---"; "name: Delta"]));
                     ("notes.txt", Unreadable OSError)]))
  = Parsed (JObj demo_top).
Proof.
  apply (nothing_parses_nothing_changes
           (World (Parsed (JObj demo_top))
                  (Listing [("d.md", TextFile (join_lines ["---"; "name: Delta"]));
                            ("notes.txt", Unreadable OSError)]))
           [("d.md", TextFile (join_lines ["---"; "name: Delta"]));
            ("notes.txt", Unreadable OSError)]);
    [reflexivity | exact skipped_dir_none_parses].
Defined.

Lemma agents_keys_after_run_witness :
  exists final,
    settings_after demo_world = Parsed final /\
    dom (agents_of final)
    = dom (agents_of (JObj demo_top)) ∪ list_to_set (puts demo_dir).*1.
Proof.
  apply (agents_keys_after_run demo_world (JObj demo_top) demo_dir);
    [reflexivity | reflexivity | by vm_compute].
Defined.

Lemma unrelated_entries_untouched_witness :
  exists final,
    settings_after demo_world = Parsed final /\
    agents_of final !! "old" = agents_of (JObj demo_top) !! "old".
Proof.
  apply (unrelated_entries_untouched demo_world (JObj demo_top) demo_dir "old");
    [reflexivity | reflexivity | compute_done].
Defined.

Lemma summary_count_bounds_witness :
  exists count,
    last (stdout (run demo_world).1) = Some (SummaryLine count) /\
    size (agents_of (JObj demo_top)) <= count
    <= size (agents_of (JObj demo_top)) + length (puts demo_dir).
Proof.
  apply (summary_count_bounds demo_world (JObj demo_top) demo_dir);
    [reflexivity | reflexivity | exact demo_top_ok | by vm_compute].
Defined.

Lemma listing_order_irrelevant_witness :
  settings_after
    (World (Parsed (JObj demo_top))
           (Listing [("a.md", TextFile (doc "Alpha" "First" "Do this."));
                     ("b.md", TextFile (doc "Beta" "Second" "Do that."))]))
  = settings_after
      (World (Parsed (JObj demo_top))
             (Listing [("b.md", TextFile (doc "Beta" "Second" "Do that."));
                       ("a.md", TextFile (doc "Alpha" "First" "Do this."))])).
Proof.
  apply (listing_order_irrelevant (JObj demo_top)
           [("a.md", TextFile (doc "Alpha" "First" "Do this."));
            ("b.md", TextFile (doc "Beta" "Second" "Do that."))]
           [("b.md", TextFile (doc "Beta" "Second" "Do that."));
            ("a.md", TextFile (doc "Alpha" "First" "Do this."))]).
  - apply perm_swap.
  - compute_done.
Defined.

Lemma second_run_repeats_first_witness :
  run (world_after demo_world) = run demo_world.
Proof. apply (second_run_repeats_first demo_world). by vm_compute. Defined.

Lemma merge_fails_on_ill_typed_store_witness :
  (store_ok (JObj demo_top) <->
   exists settings',
     merge_agent (JObj demo_top) "a" (agent_entry "A" "B" "C") = inr settings') /\
  (~ store_ok (JObj demo_top) <->
   merge_agent (JObj demo_top) "a" (agent_entry "A" "B" "C") = inl TypeError).
Proof.
  exact (merge_fails_on_ill_typed_store (JObj demo_top) "a"
           (agent_entry "A" "B" "C")).
Defined.

Lemma written_once_after_the_loop_witness :
  dumps (run demo_world).1 = [fold_put (JObj demo_top) (puts demo_dir)].
Proof.
  apply (proj1 (written_once_after_the_loop demo_world)
           (JObj demo_top) demo_dir (loop_events demo_dir));
    [reflexivity | reflexivity | by vm_compute].
Defined.


End Further.
